(** * ddns-updater: the Cloudflare provider, the record projection and the
      public-IP information provider dispatch

    A shallow embedding of
    - [internal/provider/providers/cloudflare] (construction, validation,
      client creation, lookup, creation and [Update]),
    - [internal/records] ([Record.JSON]) with [models.Stat],
    - [pkg/publicip/info] ([ListProviders], [ValidateProvider],
      [newProvider]),
    - [internal/server] (the [status] handler, up to the encoder),
    together with the parts of the Go runtime they rest on ([errors],
    [fmt], [net/netip], [time], [regexp]).

    Layout: definitions first (Go runtime, then the packages, then the
    fixtures used by the examples), theorems afterwards. *)

From Stdlib Require Import ZArith NArith Bool List String Ascii Lia.
From Stdlib Require DecimalString HexadecimalString.
Import ListNotations.
Local Open Scope string_scope.
Local Open Scope Z_scope.

(* ================================================================== *)
(** * Part I: definitions *)
(* ================================================================== *)

(** ** Go values shared by all packages *)

(** A Go call that either returns normally or aborts the goroutine. *)
Inductive outcome (A : Type) : Type :=
| Returned (a : A)
| Panicked (msg : string).
Arguments Returned {A} a.
Arguments Panicked {A} msg.

Module Strconv.

  (** [strconv.Itoa] on a non-negative count ([%d] of a [len]). *)
Definition Itoa (n : N) : string :=
    DecimalString.NilZero.string_of_uint (N.to_uint n).

  (** Lower-case hexadecimal without leading zeros ([appendHex]). *)
Definition Hex (n : N) : string :=
    HexadecimalString.NilZero.string_of_uint (N.to_hex_uint n).

End Strconv.

Module Strings.

  (** [strings.Contains]: [sub] occurs somewhere inside [s]. *)
Definition Contains (s sub : string) : Prop :=
    exists pre post, s = pre ++ sub ++ post.

Fixpoint has_prefix (p s : string) : bool :=
    match p, s with
    | EmptyString, _ => true
    | String a p', String b s' => Ascii.eqb a b && has_prefix p' s'
    | String _ _, EmptyString => false
    end.

  (** Executable version of [Contains]. *)
Fixpoint contains (s sub : string) : bool :=
    has_prefix sub s ||
    match s with
    | EmptyString => false
    | String _ s' => contains s' sub
    end.

Definition is_empty (s : string) : bool :=
    match s with EmptyString => true | String _ _ => false end.

End Strings.

(** ** Package [errors] and [fmt.Errorf]

    Sentinel errors are compared by identity in Go; they are an
    enumeration here.  [ErrUnknownProvider] is declared in package [info];
    the others live in [internal/provider/errors]. *)
Module Errors.

Inductive sentinel : Type :=
  | ErrDomainNotValid
  | ErrKeyNotValid
  | ErrEmailNotValid
  | ErrUserServiceKeyNotValid
  | ErrZoneIdentifierNotSet
  | ErrTTLNotSet
  | ErrReceivedNoResult
  | ErrResultsCountReceived
  | ErrUnknownProvider.

Definition sentinel_eqb (a b : sentinel) : bool :=
    match a, b with
    | ErrDomainNotValid, ErrDomainNotValid
    | ErrKeyNotValid, ErrKeyNotValid
    | ErrEmailNotValid, ErrEmailNotValid
    | ErrUserServiceKeyNotValid, ErrUserServiceKeyNotValid
    | ErrZoneIdentifierNotSet, ErrZoneIdentifierNotSet
    | ErrTTLNotSet, ErrTTLNotSet
    | ErrReceivedNoResult, ErrReceivedNoResult
    | ErrResultsCountReceived, ErrResultsCountReceived
    | ErrUnknownProvider, ErrUnknownProvider => true
    | _, _ => false
    end.

  (** An error value.
      - [Sentinel s]: one of the package-level [errors.New] values;
      - [Opaque m]: an error made outside these packages (the vendor SDK,
        [encoding/json], [utils.CheckDomain]) or by [fmt.Errorf] without
        [%w]; it wraps none of the sentinels above;
      - [Wrap pre e post]: [fmt.Errorf] with one [%w] verb;
      - [Wrap2 e1 sep e2]: [fmt.Errorf("%w" ++ sep ++ "%w", e1, e2)]. *)
Inductive error : Type :=
  | Sentinel (s : sentinel)
  | Opaque (msg : string)
  | Wrap (pre : string) (e : error) (post : string)
  | Wrap2 (e1 : error) (sep : string) (e2 : error).

  (** [errors.Is(err, target)] for a sentinel target: walks the tree of
      wrapped errors. *)
Fixpoint Is (err : error) (target : sentinel) : bool :=
    match err with
    | Sentinel s => sentinel_eqb s target
    | Opaque _ => false
    | Wrap _ e _ => Is e target
    | Wrap2 e1 _ e2 => Is e1 target || Is e2 target
    end.

Section Text.
    (** The texts of the sentinels of [internal/provider/errors]. *)
Variable errorsText : sentinel -> string.

Definition sentinel_Error (s : sentinel) : string :=
      match s with
      | ErrUnknownProvider => "unknown public IP information provider"
      | _ => errorsText s
      end.

    (** The [Error()] method. *)
Fixpoint Error (err : error) : string :=
      match err with
      | Sentinel s => sentinel_Error s
      | Opaque m => m
      | Wrap pre e post => pre ++ Error e ++ post
      | Wrap2 e1 sep e2 => Error e1 ++ sep ++ Error e2
      end.
End Text.

End Errors.
Export Errors.

(** ** Package [net/netip]: the address value and its text *)
Module Netip.

Inductive zoneTag : Type :=
  | z0                      (* the zero Addr: not an IP address *)
  | z4                      (* IPv4 *)
  | z6noz                   (* IPv6 without zone *)
  | z6zone (name : string). (* IPv6 with a zone *)

  (** [addr] is a 128-bit integer held as two 64-bit halves. *)
Record Addr : Type := mkAddr { hi : Z; lo : Z; z : zoneTag }.

  (** [netip.Addr{}] *)
Definition zero : Addr := mkAddr 0 0 z0.

Definition AddrFrom4 (a b c d : Z) : Addr :=
    mkAddr 0
      (Z.lor 0xffff00000000
         (Z.lor (Z.shiftl a 24)
            (Z.lor (Z.shiftl b 16) (Z.lor (Z.shiftl c 8) d))))
      z4.

Definition IsValid (ip : Addr) : bool :=
    match z ip with z0 => false | _ => true end.

Definition Is4 (ip : Addr) : bool :=
    match z ip with z4 => true | _ => false end.

Definition Is6 (ip : Addr) : bool :=
    match z ip with z0 | z4 => false | _ => true end.

Definition Is4In6 (ip : Addr) : bool :=
    Is6 ip && (hi ip =? 0) && (Z.shiftr (lo ip) 32 =? 0xffff).

Definition Unmap (ip : Addr) : Addr :=
    if Is4In6 ip then mkAddr (hi ip) (lo ip) z4 else ip.

Definition Zone (ip : Addr) : string :=
    match z ip with z6zone n => n | _ => "" end.

  (** [uint8(ip.addr.lo >> ((3 - i) * 8))] *)
Definition v4 (ip : Addr) (i : Z) : Z :=
    Z.land (Z.shiftr (lo ip) ((3 - i) * 8)) 0xff.

  (** Group [i] of the address: the 16 bits at offset [(3 - i%4) * 16] of
      the half numbered [(i/4)%2]. *)
Definition v6u16 (ip : Addr) (i : Z) : Z :=
    let half := if (i / 4) mod 2 =? 0 then hi ip else lo ip in
    Z.land (Z.shiftr half ((3 - i mod 4) * 16)) 0xffff.

Definition string4 (ip : Addr) : string :=
    Strconv.Itoa (Z.to_N (v4 ip 0)) ++ "." ++
    Strconv.Itoa (Z.to_N (v4 ip 1)) ++ "." ++
    Strconv.Itoa (Z.to_N (v4 ip 2)) ++ "." ++
    Strconv.Itoa (Z.to_N (v4 ip 3)).

Definition zone_suffix (ip : Addr) : string :=
    match z ip with
    | z6zone n => "%" ++ n
    | _ => ""
    end.

Definition string4In6 (ip : Addr) : string :=
    "::ffff:" ++ string4 (Unmap ip) ++ zone_suffix ip.

  (** The inner loop of [appendTo6]: from [j], skip the 16-bit groups
      that are zero. *)
Fixpoint skip_zero (ip : Addr) (fuel : nat) (j : Z) : Z :=
    match fuel with
    | O => j
    | S fuel' =>
        if (j <? 8) && (v6u16 ip j =? 0) then skip_zero ip fuel' (j + 1)
        else j
    end.

  (** The first loop of [appendTo6]: the longest run of at least two
      zero groups, as [(zeroStart, zeroEnd)]; [(255, 255)] when none. *)
Definition zero_run (ip : Addr) : Z * Z :=
    fold_left
      (fun (acc : Z * Z) (i : Z) =>
         let '(zeroStart, zeroEnd) := acc in
         let j := skip_zero ip 8 i in
         let l := j - i in
         if (2 <=? l) && (zeroEnd - zeroStart <? l) then (i, j) else acc)
      [0; 1; 2; 3; 4; 5; 6; 7] (255, 255).

  (** The second loop of [appendTo6], from group [i] on. *)
Fixpoint groups6 (ip : Addr) (zeroStart zeroEnd : Z) (fuel : nat)
      (i : Z) : string :=
    match fuel with
    | O => ""
    | S fuel' =>
        if 8 <=? i then ""
        else if i =? zeroStart then
          "::" ++
          (if 8 <=? zeroEnd then ""
           else Strconv.Hex (Z.to_N (v6u16 ip zeroEnd)) ++
                groups6 ip zeroStart zeroEnd fuel' (zeroEnd + 1))
        else
          (if 0 <? i then ":" else "") ++
          Strconv.Hex (Z.to_N (v6u16 ip i)) ++
          groups6 ip zeroStart zeroEnd fuel' (i + 1)
    end.

Definition string6 (ip : Addr) : string :=
    let '(zeroStart, zeroEnd) := zero_run ip in
    groups6 ip zeroStart zeroEnd 8 0 ++ zone_suffix ip.

  (** [Addr.String] *)
Definition String (ip : Addr) : string :=
    match z ip with
    | z0 => "invalid IP"
    | z4 => string4 ip
    | _ => if Is4In6 ip then string4In6 ip else string6 ip
    end.

  (** [netip.Prefix] *)
Record Prefix : Type := mkPrefix { prefix_ip : Addr; prefix_bits : Z }.

End Netip.

(** ** Package [time]: instants, durations and their text *)
Module GoTime.

  (** A [Duration] is a signed 64-bit count of nanoseconds. *)
Definition Duration : Type := Z.

Definition Nanosecond : Duration := 1.
Definition Microsecond : Duration := 1000 * Nanosecond.
Definition Millisecond : Duration := 1000 * Microsecond.
Definition Second : Duration := 1000 * Millisecond.

Definition minDuration : Duration := - 2 ^ 63.
Definition maxDuration : Duration := 2 ^ 63 - 1.

  (** Two's-complement wrap-around of [int64] arithmetic. *)
Definition wrap64 (x : Z) : Z := (x + 2 ^ 63) mod 2 ^ 64 - 2 ^ 63.

  (** The conversion [uint64(x)]. *)
Definition uint64 (x : Z) : Z := x mod 2 ^ 64.

  (** An instant, as nanoseconds on the clock it was read from. *)
Definition Time : Type := Z.

  (** [t.Sub(u)]: the difference, saturated to the range of [Duration]. *)
Definition Sub (t u : Time) : Duration :=
    let d := t - u in
    if d <? minDuration then minDuration
    else if maxDuration <? d then maxDuration
    else d.

  (** [time.Since(t)] is [time.Now().Sub(t)]; [clock] is what
      [time.Now()] reads. *)
Definition Since (clock : Time) (t : Time) : Duration := Sub clock t.

Definition lessThanHalf (x y : Duration) : bool :=
    uint64 (uint64 x + uint64 x) <? uint64 y.

  (** [d.Round(m)]: to the nearest multiple of [m], halves away from
      zero. *)
Definition Round (d m : Duration) : Duration :=
    if m <=? 0 then d
    else
      let r := Z.rem d m in
      if d <? 0 then
        let r := - r in
        if lessThanHalf r m then wrap64 (d + r)
        else
          let d1 := wrap64 (d - m + r) in
          if d1 <? d then d1 else minDuration
      else
        if lessThanHalf r m then wrap64 (d - r)
        else
          let d1 := wrap64 (d + m - r) in
          if d <? d1 then d1 else maxDuration.

  (** [fmtInt]: the decimal digits of [v]. *)
Definition fmtInt (v : Z) : string := Strconv.Itoa (Z.to_N v).

Definition digit (d : Z) : ascii := ascii_of_N (Z.to_N (48 + d)).

  (** The loop of [fmtFrac]: [prec] low digits of [v], trailing zeros
      dropped; [print] says whether a non-zero digit was met. *)
Fixpoint fmtFrac_loop (prec : nat) (v : Z) (print : bool) (acc : string)
      : string * Z * bool :=
    match prec with
    | O => (acc, v, print)
    | S prec' =>
        let d := v mod 10 in
        let print := print || negb (d =? 0) in
        fmtFrac_loop prec' (v / 10) print
          (if print then String (digit d) acc else acc)
    end.

  (** [fmtFrac]: the fraction of [v / 10^prec] with its decimal point,
      and the integer part. *)
Definition fmtFrac (v : Z) (prec : nat) : string * Z :=
    let '(acc, v', print) := fmtFrac_loop prec v false "" in
    (if print then "." ++ acc else acc, v').

  (** The two bytes of the micro sign, U+00B5 in UTF-8. *)
Definition micro : string :=
    String (ascii_of_N 194) (String (ascii_of_N 181) "").

  (** [Duration.String] *)
Definition String (d : Duration) : string :=
    let u := Z.abs d in
    let neg := d <? 0 in
    if u =? 0 then "0s"
    else
      let body :=
        if u <? Second then
          let '(prec, unit_) :=
            if u <? Microsecond then (0%nat, "ns")
            else if u <? Millisecond then (3%nat, micro ++ "s")
            else (6%nat, "ms") in
          let '(frac, u) := fmtFrac u prec in
          fmtInt u ++ frac ++ unit_
        else
          let '(frac, u) := fmtFrac u 9 in
          let secs := fmtInt (u mod 60) ++ frac ++ "s" in
          let u := u / 60 in
          if 0 <? u then
            let mins := fmtInt (u mod 60) ++ "m" in
            let u := u / 60 in
            if 0 <? u then fmtInt u ++ "h" ++ mins ++ secs
            else mins ++ secs
          else secs in
      if neg then "-" ++ body else body.

End GoTime.

(** ** Package [regexp]: the three patterns of the provider

    Patterns are kept as syntax trees and matched by derivatives.  A
    pattern without the [m] and [s] flags: [^] and [$] anchor at the ends
    of the text and [.] is any character but a line feed. *)
Module Regexp.

Inductive re : Type :=
  | Void                                   (* matches nothing *)
  | Eps                                    (* the empty string *)
  | Class (ranges : list (ascii * ascii))  (* [a-z...] *)
  | Dot                                    (* . *)
  | Any                                    (* any character at all *)
  | Cat (a b : re)
  | Alt (a b : re)
  | Star (a : re).

  (** [a+] *)
Definition Plus (a : re) : re := Cat a (Star a).

  (** [a?] *)
Definition Opt (a : re) : re := Alt a Eps.

  (** At most [m] copies of [a]: [a{0,m}] *)
Fixpoint AtMost (a : re) (m : nat) : re :=
    match m with
    | O => Eps
    | S m' => Opt (Cat a (AtMost a m'))
    end.

  (** [n] copies of [a], then at most [m] more: [a{n,n+m}] *)
Fixpoint Repeat (a : re) (n m : nat) : re :=
    match n with
    | O => AtMost a m
    | S n' => Cat a (Repeat a n' m)
    end.

Definition in_range (c : ascii) (r : ascii * ascii) : bool :=
    (N_of_ascii (fst r) <=? N_of_ascii c)%N &&
    (N_of_ascii c <=? N_of_ascii (snd r))%N.

Fixpoint nullable (r : re) : bool :=
    match r with
    | Void | Class _ | Dot | Any => false
    | Eps | Star _ => true
    | Cat a b => nullable a && nullable b
    | Alt a b => nullable a || nullable b
    end.

  (** Constructors that drop [Void] and [Eps] so derivatives stay small. *)
Definition cat (a b : re) : re :=
    match a, b with
    | Void, _ | _, Void => Void
    | Eps, _ => b
    | _, Eps => a
    | _, _ => Cat a b
    end.

Definition alt (a b : re) : re :=
    match a, b with
    | Void, _ => b
    | _, Void => a
    | _, _ => Alt a b
    end.

  (** The derivative of [r] by the character [c]. *)
Fixpoint deriv (c : ascii) (r : re) : re :=
    match r with
    | Void | Eps => Void
    | Class ranges => if existsb (in_range c) ranges then Eps else Void
    | Dot => if Ascii.eqb c "010"%char then Void else Eps
    | Any => Eps
    | Cat a b =>
        if nullable a then alt (cat (deriv c a) b) (deriv c b)
        else cat (deriv c a) b
    | Alt a b => alt (deriv c a) (deriv c b)
    | Star a => cat (deriv c a) (Star a)
    end.

  (** [r] matches the whole of [s]. *)
Fixpoint full_match (r : re) (s : string) : bool :=
    match s with
    | EmptyString => nullable r
    | String.String c s' => full_match (deriv c r) s'
    end.

  (** A compiled pattern: its source text, whether it starts with [^],
      its body, whether it ends with [$]. *)
Record Regexp : Type := MustCompile {
    source : string;
    at_start : bool;
    body : re;
    at_end : bool
  }.

  (** [re.MatchString(s)]: some substring of [s] matches, pinned to the
      ends of [s] where the pattern is anchored. *)
Definition MatchString (p : Regexp) (s : string) : bool :=
    full_match
      (Cat (if at_start p then Eps else Star Any)
         (Cat (body p) (if at_end p then Eps else Star Any)))
      s.

Definition lower : ascii * ascii := ("a"%char, "z"%char).
Definition upper : ascii * ascii := ("A"%char, "Z"%char).
Definition digits : ascii * ascii := ("0"%char, "9"%char).
Definition one (c : ascii) : ascii * ascii := (c, c).
Definition lit (c : ascii) : re := Class [one c].

End Regexp.

(** ** Collaborating packages outside the excerpt

    [pkg/publicip/ipversion], [internal/provider/utils],
    [internal/provider/constants], [internal/provider/errors] and
    [internal/constants] are used by the code below but are not part of
    it; what the code takes from them is a parameter of the development.
    So is [strconv.Quote], the [%q] verb of [fmt]. *)
Module Ipversion.

Inductive IPVersion : Type := IP4or6 | IP4 | IP6.

End Ipversion.
Export Ipversion.

Class Packages : Type := {
  (** [utils.CheckDomain]: [None] is a [nil] error. *)
  utils_CheckDomain : string -> option error;
  (** [utils.BuildDomainName(owner, domain)] *)
  utils_BuildDomainName : string -> string -> string;
  (** [utils.ToString(domain, owner, provider, ipVersion)] *)
  utils_ToString : string -> string -> string -> IPVersion -> string;
  (** [constants.Cloudflare] *)
  constants_Cloudflare : string;
  (** The texts of the sentinels of [internal/provider/errors]. *)
  errors_text : sentinel -> string;
  (** [IPVersion.String] *)
  ipversion_String : IPVersion -> string;
  (** [constants.UPTODATE], a [models.Status] *)
  constants_UPTODATE : string;
  (** [strconv.Quote] *)
  strconv_Quote : string -> string
}.

(** ** The vendor SDK: [cloudflare-go/v6] with its [dns] and [option]
    packages, as far as the provider calls into it *)
Module Cf.

  (** [option.WithAPIToken], [option.WithAPIKey], [option.WithAPIEmail] *)
Inductive RequestOption : Type :=
  | WithAPIToken (token : string)
  | WithAPIKey (key : string)
  | WithAPIEmail (email : string).

  (** [cf.NewClient(opts...)] keeps the options it was given. *)
Definition Client : Type := list RequestOption.
Definition NewClient (opts : list RequestOption) : Client := opts.

  (** [cfdns.ARecordType], a string type. *)
Definition ARecordType : Type := string.
Definition ARecordTypeA : ARecordType := "A".
Definition AAAARecordTypeAAAA : ARecordType := "AAAA".

Record RecordListParams : Type := {
    list_ZoneID : string;
    list_Type : ARecordType;
    list_NameExact : string
  }.

Record ARecordParam : Type := {
    Name : string;
    Type_ : ARecordType;
    Content : string;
    TTL : Z;
    Proxied : bool
  }.

Record RecordNewParams : Type := {
    new_ZoneID : string;
    new_Body : ARecordParam
  }.

Record RecordUpdateParams : Type := {
    update_ZoneID : string;
    update_Body : ARecordParam
  }.

  (** [cfdns.RecordResponse], the two fields the provider reads. *)
Record RecordResponse : Type := {
    ID : string;
    resp_Content : string
  }.

  (** The service [cfClient.DNS.Records] over a vendor state [W].  A call
      answers with a value or with an error of the SDK (its text), and
      leaves the vendor in a new state. *)
Class DNSRecords (W : Type) : Type := {
    Records_List :
      Client -> RecordListParams -> W -> (string + list RecordResponse) * W;
    Records_New :
      Client -> RecordNewParams -> W -> (string + RecordResponse) * W;
    Records_Update :
      Client -> string -> RecordUpdateParams -> W ->
      (string + RecordResponse) * W
  }.

  (** One request sent to the vendor. *)
Inductive Call : Type :=
  | CallList (c : Client) (q : RecordListParams)
  | CallNew (c : Client) (q : RecordNewParams)
  | CallUpdate (c : Client) (recordID : string) (q : RecordUpdateParams).

  (** A request that changes the zone. *)
Definition mutating (c : Call) : bool :=
    match c with
    | CallList _ _ => false
    | CallNew _ _ | CallUpdate _ _ _ => true
    end.

Definition is_create (c : Call) : bool :=
    match c with CallNew _ _ => true | _ => false end.

Definition is_update (c : Call) : bool :=
    match c with CallUpdate _ _ _ => true | _ => false end.

  (** The vendor together with the requests sent so far, oldest first. *)
Record World (W : Type) : Type := mkWorld {
    vendor : W;
    calls : list Call
  }.
Arguments mkWorld {W} vendor calls.
Arguments vendor {W} w.
Arguments calls {W} w.

  (** Code that talks to the vendor: a state monad over [World]. *)
Definition M (W A : Type) : Type := World W -> A * World W.

Definition ret {W A} (a : A) : M W A := fun w => (a, w).

Definition bind {W A B} (m : M W A) (k : A -> M W B) : M W B :=
    fun w => let '(a, w') := m w in k a w'.

  (** Send one request: the vendor answers and the request is logged. *)
Definition request {W A} (c : Call) (f : W -> A * W) : M W A :=
    fun w =>
      let '(a, v') := f (vendor w) in
      (a, mkWorld v' (calls w ++ [c])).

Definition List_ {W} `{DNSRecords W} (c : Client) (q : RecordListParams)
      : M W (string + list RecordResponse) :=
    request (CallList c q) (Records_List c q).

Definition New_ {W} `{DNSRecords W} (c : Client) (q : RecordNewParams)
      : M W (string + RecordResponse) :=
    request (CallNew c q) (Records_New c q).

Definition Update_ {W} `{DNSRecords W} (c : Client) (recordID : string)
      (q : RecordUpdateParams) : M W (string + RecordResponse) :=
    request (CallUpdate c recordID q) (Records_Update c recordID q).

  (** Run [m] against the vendor state [v] with an empty log: what [m]
      returns, the vendor state it leaves, and the requests it sent. *)
Definition run {W A} (m : M W A) (v : W) : A * W * list Call :=
    let '(a, w) := m (mkWorld v []) in (a, vendor w, calls w).

End Cf.

Declare Scope vendor_scope.
Delimit Scope vendor_scope with vendor.
Notation "x <- m ;; k" := (Cf.bind m (fun x => k))
  (at level 61, m at next level, right associativity) : vendor_scope.
Notation "' pat <- m ;; k" := (Cf.bind m (fun x => match x with pat => k end))
  (at level 61, pat pattern, m at next level, right associativity)
  : vendor_scope.

(** ** Package [cloudflare]: the provider *)
Module Cloudflare.
Import Cf Regexp.

Record Provider : Type := mkProvider {
    domain : string;
    owner : string;
    ipVersion : IPVersion;
    ipv6Suffix : Netip.Prefix;
    key : string;
    token : string;
    email : string;
    userServiceKey : string;
    zoneIdentifier : string;
    proxied : bool;
    ttl : Z
  }.

  (** The anonymous struct [extraSettings] of [New]. *)
Record ExtraSettings : Type := mkExtraSettings {
    Key : string;
    Token : string;
    Email : string;
    UserServiceKey : string;
    ZoneIdentifier : string;
    Proxied_ : bool;
    TTL_ : Z
  }.

  (** [json.Unmarshal] into a zero [extraSettings]: an error, or the
      struct with the fields present in the document filled in. *)
Class Json : Type := {
    Unmarshal : string -> error + ExtraSettings
  }.

Definition alnum : list (ascii * ascii) := [lower; upper; digits].

  (** [^[a-zA-Z0-9]+$] *)
Definition keyRegex : Regexp :=
    MustCompile "^[a-zA-Z0-9]+$" true (Plus (Class alnum)) true.

  (** [^v1\.0.+$] *)
Definition userServiceKeyRegex : Regexp :=
    MustCompile "^v1\.0.+$" true
      (Cat (lit "v") (Cat (lit "1") (Cat (lit ".") (Cat (lit "0") (Plus Dot)))))
      true.

  (** [[a-zA-Z0-9-_.+]+@[a-zA-Z0-9-_.]+\.[a-zA-Z]{2,10}] *)
Definition regexEmail : Regexp :=
    MustCompile "[a-zA-Z0-9-_.+]+@[a-zA-Z0-9-_.]+\.[a-zA-Z]{2,10}" false
      (Cat (Plus (Class (alnum ++ [one "-"; one "_"; one "."; one "+"])))
         (Cat (lit "@")
            (Cat (Plus (Class (alnum ++ [one "-"; one "_"; one "."])))
               (Cat (lit ".") (Repeat (Class [lower; upper]) 2 8)))))
      false.

Section Provider.
Context {PK : Packages} {JS : Json}.

Definition validateSettings
        (domain email key userServiceKey zoneIdentifier : string) (ttl : Z)
        : option error :=
      match utils_CheckDomain domain with
      | Some err => Some (Wrap2 (Sentinel ErrDomainNotValid) ": " err)
      | None =>
          let credentials : option error :=
            if negb (Strings.is_empty email) || negb (Strings.is_empty key)
            then
              if negb (MatchString keyRegex key) then
                Some (Wrap "" (Sentinel ErrKeyNotValid)
                        (": key " ++ strconv_Quote key ++
                         " does not match regex " ++
                         strconv_Quote (source keyRegex)))
              else if negb (MatchString regexEmail email) then
                Some (Wrap "" (Sentinel ErrEmailNotValid)
                        (": email " ++ strconv_Quote email ++
                         " does not match regex " ++
                         strconv_Quote (source regexEmail)))
              else None
            else if negb (Strings.is_empty userServiceKey) then
              if negb (MatchString userServiceKeyRegex userServiceKey) then
                Some (Wrap "" (Sentinel ErrUserServiceKeyNotValid)
                        (": " ++ strconv_Quote userServiceKey ++
                         " does not match regex " ++
                         strconv_Quote (source userServiceKeyRegex)))
              else None
            else None in
          match credentials with
          | Some err => Some err
          | None =>
              if Strings.is_empty zoneIdentifier then
                Some (Wrap "" (Sentinel ErrZoneIdentifierNotSet) "")
              else if ttl =? 0 then
                Some (Wrap "" (Sentinel ErrTTLNotSet) "")
              else None
          end
      end.

Definition New (data : string) (domain owner : string)
        (ipVersion : IPVersion) (ipv6Suffix : Netip.Prefix)
        : error + Provider :=
      match Unmarshal data with
      | inl err => inl err
      | inr extraSettings =>
          match validateSettings domain (Email extraSettings)
                  (Key extraSettings) (UserServiceKey extraSettings)
                  (ZoneIdentifier extraSettings) (TTL_ extraSettings) with
          | Some err =>
              inl (Wrap "validating provider specific settings: " err "")
          | None =>
              inr {| domain := domain;
                     owner := owner;
                     ipVersion := ipVersion;
                     ipv6Suffix := ipv6Suffix;
                     key := Key extraSettings;
                     token := Token extraSettings;
                     email := Email extraSettings;
                     userServiceKey := UserServiceKey extraSettings;
                     zoneIdentifier := ZoneIdentifier extraSettings;
                     proxied := Proxied_ extraSettings;
                     ttl := TTL_ extraSettings |}
          end
      end.

Definition String (p : Provider) : string :=
      utils_ToString (domain p) (owner p) constants_Cloudflare (ipVersion p).

Definition Domain (p : Provider) : string := domain p.
Definition Owner (p : Provider) : string := owner p.
Definition IPVersion_ (p : Provider) : IPVersion := ipVersion p.
Definition IPv6Suffix (p : Provider) : Netip.Prefix := ipv6Suffix p.
Definition Proxied (p : Provider) : bool := proxied p.

Definition BuildDomainName (p : Provider) : string :=
      utils_BuildDomainName (owner p) (domain p).

Definition createCloudflareClient (p : Provider) : error + Client :=
      if negb (Strings.is_empty (token p)) then
        inr (NewClient [WithAPIToken (token p)])
      else if negb (Strings.is_empty (email p)) &&
              negb (Strings.is_empty (key p)) then
        inr (NewClient [WithAPIKey (key p); WithAPIEmail (email p)])
      else if negb (Strings.is_empty (userServiceKey p)) then
        inr (NewClient [WithAPIKey (userServiceKey p)])
      else inl (Opaque "no authentication method available").

Definition recordTypeForIP (ip : Netip.Addr) : ARecordType :=
      if Netip.Is6 ip then AAAARecordTypeAAAA else ARecordTypeA.

    (** The [cfdns.ARecordParam] built by [createRecord] and by [Update]. *)
Definition recordBody (p : Provider) (ip : Netip.Addr) : ARecordParam :=
      {| Name := BuildDomainName p;
         Type_ := recordTypeForIP ip;
         Content := Netip.String ip;
         TTL := ttl p;
         Cf.Proxied := proxied p |}.

    (** The [cfdns.RecordListParams] built by [getRecordID]. *)
Definition listQuery (p : Provider) (newIP : Netip.Addr)
        : RecordListParams :=
      {| list_ZoneID := zoneIdentifier p;
         list_Type := recordTypeForIP newIP;
         list_NameExact := BuildDomainName p |}.

(** The creation request of [createRecord]. *)
Definition creation (p : Provider) (ip : Netip.Addr) : RecordNewParams :=
  {| new_ZoneID := zoneIdentifier p; new_Body := recordBody p ip |}.

(** The update request at the end of [Update]. *)
Definition change (p : Provider) (ip : Netip.Addr) : RecordUpdateParams :=
  {| update_ZoneID := zoneIdentifier p; update_Body := recordBody p ip |}.

Section Calls.
Context {W : Type} {DNS : DNSRecords W}.
      Local Open Scope vendor_scope.

      (** Returns [(identifier, upToDate, err)]. *)
Definition getRecordID (p : Provider) (cfClient : Client)
          (newIP : Netip.Addr) : M W (string * bool * option error) :=
        records <- List_ cfClient (listQuery p newIP) ;;
        match records with
        | inl err =>
            ret ("", false,
                 Some (Wrap "error listing DNS records: " (Opaque err) ""))
        | inr [] =>
            ret ("", false, Some (Wrap "" (Sentinel ErrReceivedNoResult) ""))
        | inr ((first :: _) as result) =>
            if (1 <? List.length result)%nat then
              ret ("", false,
                   Some (Wrap "" (Sentinel ErrResultsCountReceived)
                           (": " ++ Strconv.Itoa (N.of_nat (List.length result)) ++
                            " instead of 1")))
            else if String.eqb (resp_Content first) (Netip.String newIP) then
              ret (ID first, true, None)
            else ret (ID first, false, None)
        end.

      (** Returns [(recordID, err)]. *)
Definition createRecord (p : Provider) (cfClinet : Client)
          (ip : Netip.Addr) : M W (string * option error) :=
        result <- New_ cfClinet
                    {| new_ZoneID := zoneIdentifier p;
                       new_Body := recordBody p ip |} ;;
        match result with
        | inl err =>
            ret ("", Some (Wrap "error creating DNS record: " (Opaque err) ""))
        | inr r => ret (ID r, None)
        end.

      (** [errors.Is] on an error that may be [nil]. *)
Definition errIs (err : option error) (target : sentinel) : bool :=
        match err with
        | Some e => Is e target
        | None => false
        end.

      (** The last statement of [Update]: the update request for
          [dnsRecordID] and the return that follows it. *)
Definition updateRecord (p : Provider) (cfClient : Client)
          (dnsRecordID : string) (ip : Netip.Addr)
          : M W (Netip.Addr * option error) :=
        result <- Update_ cfClient dnsRecordID
                    {| update_ZoneID := zoneIdentifier p;
                       update_Body := recordBody p ip |} ;;
        match result with
        | inl err =>
            ret (Netip.zero,
                 Some (Wrap "updating DNS record: " (Opaque err) ""))
        | inr _ => ret (ip, None)
        end.

      (** Returns [(newIP, err)]. *)
Definition Update (p : Provider) (ip : Netip.Addr)
          : M W (Netip.Addr * option error) :=
        match createCloudflareClient p with
        | inl err =>
            ret (Netip.zero,
                 Some (Wrap "failed to create cloudflare client: " err ""))
        | inr cfClient =>
            ' (dnsRecordID, upToDate, err) <- getRecordID p cfClient ip ;;
            if errIs err ErrReceivedNoResult then
              ' (dnsRecordID, err) <- createRecord p cfClient ip ;;
              match err with
              | Some e =>
                  ret (Netip.zero, Some (Wrap "creating record: " e ""))
              | None => updateRecord p cfClient dnsRecordID ip
              end
            else
              match err with
              | Some e =>
                  ret (Netip.zero, Some (Wrap "getting record id: " e ""))
              | None =>
                  if upToDate then ret (ip, None)
                  else updateRecord p cfClient dnsRecordID ip
              end
        end.

End Calls.
End Provider.

End Cloudflare.

(** ** Package [models]: the projected row *)
Module Models.

  (** [models.Stat]; the comment on each field is its JSON name. *)
Record Stat : Type := mkStat {
    Domain : string;                  (* domain *)
    Owner : string;                   (* owner *)
    Provider : string;                (* provider *)
    IPVersion : string;               (* ip_version *)
    Status : string;                  (* status *)
    CurrentIP : string;               (* current_ip *)
    PreviousIPs : list Netip.Addr     (* previous_ips *)
  }.

  (** The methods of [models.History] that the projection calls. *)
Class HistoryOps (H : Type) : Type := {
    GetCurrentIP : H -> Netip.Addr;
    GetPreviousIPs : H -> list Netip.Addr;
    GetDurationSinceSuccess : H -> GoTime.Time -> string
  }.

End Models.

(** ** Package [records]: [Record.JSON] *)
Module Records.

  (** The methods of the provider interface that the projection calls. *)
Class ProviderOps (P : Type) : Type := {
    Domain : P -> string;
    Owner : P -> string;
    String : P -> string;
    IPVersion : P -> IPVersion
  }.

  (** The fields of [records.Record] that the projection reads;
      [Status] is a [models.Status], a string type. *)
Record Record_ (P H : Type) : Type := mkRecord {
    Provider : P;
    History : H;
    Status : string;
    Message : string;
    Time : GoTime.Time
  }.
Arguments mkRecord {P H}.
Arguments Provider {P H}.
Arguments History {P H}.
Arguments Status {P H}.
Arguments Message {P H}.
Arguments Time {P H}.

Section JSON.
Context {PK : Packages}.
Context {P H : Type} {PO : ProviderOps P} {HO : Models.HistoryOps H}.

Definition NotAvailable : string := "N/A".

    (** The message after the two first [if] of [JSON]: replaced for an
        up-to-date record, then put in parentheses unless empty. *)
Definition shownMessage (r : Record_ P H) (now : GoTime.Time) : string :=
      let message := Message r in
      let message :=
        if String.eqb (Status r) constants_UPTODATE then
          "no IP change for " ++
          Models.GetDurationSinceSuccess (History r) now
        else message in
      if negb (Strings.is_empty message) then "(" ++ message ++ ")"
      else message.

    (** [time.Since(r.Time).Round(time.Second).String() + " ago"] *)
Definition age (clock : GoTime.Time) (r : Record_ P H) : string :=
      GoTime.String
        (GoTime.Round (GoTime.Since clock (Time r)) GoTime.Second) ++ " ago".

    (** [r.JSON(now)], run when the wall clock reads [clock]. *)
Definition JSON (clock : GoTime.Time) (r : Record_ P H)
        (now : GoTime.Time) : Models.Stat :=
      let message := shownMessage r now in
      {| Models.Domain := Domain (Provider r);
         Models.Owner := Owner (Provider r);
         Models.Provider := String (Provider r);
         Models.IPVersion := ipversion_String (IPVersion (Provider r));
         Models.CurrentIP :=
           Netip.String (Models.GetCurrentIP (History r));
         Models.PreviousIPs := Models.GetPreviousIPs (History r);
         Models.Status :=
           if Strings.is_empty (Status r) then NotAvailable
           else Status r ++ " " ++ message ++ ", " ++ age clock r |}.

End JSON.

End Records.

(** ** Package [info]: the public-IP information providers *)
Module Info.

  (** [type Provider string] *)
Definition Provider : Type := string.

Definition Ipinfo : Provider := "ipinfo".
Definition IP2Location : Provider := "ip2location".

Definition ListProviders : list Provider := [Ipinfo; IP2Location].

  (** The loop of [ValidateProvider] over the possible names. *)
Fixpoint known (provider : Provider) (possibles : list Provider) : bool :=
    match possibles with
    | [] => false
    | possible :: rest =>
        if String.eqb provider possible then true else known provider rest
    end.

Definition ValidateProvider (provider : Provider) : option error :=
    if known provider ListProviders then None
    else Some (Wrap "" (Sentinel ErrUnknownProvider) (": " ++ provider)).

  (** [newIpinfo] and [newIP2Location], for an HTTP client type [C] and
      the type [I] of the values behind the [provider] interface. *)
Class Constructors (C I : Type) : Type := {
    newIpinfo : C -> I;
    newIP2Location : C -> I
  }.

Definition newProvider {C I : Type} `{Constructors C I}
      (providerName : Provider) (client : C) : outcome I :=
    if String.eqb providerName Ipinfo then Returned (newIpinfo client)
    else if String.eqb providerName IP2Location then
      Returned (newIP2Location client)
    else Panicked ("provider " ++ providerName ++ " not implemented").

End Info.

(** ** Vocabulary of the further properties *)

(** The error [Update] returns when the vendor refuses the update
    request. *)
Definition refused_update (refusal : string) : Netip.Addr * option error :=
  (Netip.zero, Some (Wrap "updating DNS record: " (Opaque refusal) "")).

(** The shapes a sequence of requests sent by [Update] can take: nothing;
    a lookup; a lookup and an update; a lookup and a creation; a lookup,
    a creation and an update. *)
Inductive request_shape : list Cf.Call -> Prop :=
| shape_none : request_shape []
| shape_lookup c q : request_shape [Cf.CallList c q]
| shape_lookup_update c q id u :
    request_shape [Cf.CallList c q; Cf.CallUpdate c id u]
| shape_lookup_create c q n :
    request_shape [Cf.CallList c q; Cf.CallNew c n]
| shape_lookup_create_update c q n id u :
    request_shape [Cf.CallList c q; Cf.CallNew c n; Cf.CallUpdate c id u].

(** The request [call] is one that [Update p ip] builds for the client
    [c]: the lookup, the creation or the update of some record, each for
    the zone, the name and the body of [p] and [ip]. *)
Definition request_of {PK : Packages} (p : Cloudflare.Provider)
    (ip : Netip.Addr) (c : Cf.Client) (call : Cf.Call) : Prop :=
  match call with
  | Cf.CallList c' q => c' = c /\ q = Cloudflare.listQuery p ip
  | Cf.CallNew c' n => c' = c /\ n = Cloudflare.creation p ip
  | Cf.CallUpdate c' _ u => c' = c /\ u = Cloudflare.change p ip
  end.

(** An ASCII letter or digit, by its code. *)
Definition ascii_alnum (c : ascii) : bool :=
  let n := N_of_ascii c in
  ((48 <=? n) && (n <=? 57) || (65 <=? n) && (n <=? 90) ||
   (97 <=? n) && (n <=? 122))%N.

(** The line feed, the one character that [.] does not match. *)
Definition line_feed : ascii := "010"%char.

(** What it means for a text to match a pattern: the usual language of a
    regular expression, against which the matcher is checked. *)
Inductive matches : Regexp.re -> string -> Prop :=
| matches_eps : matches Regexp.Eps ""
| matches_class ranges c :
    existsb (Regexp.in_range c) ranges = true ->
    matches (Regexp.Class ranges) (String c "")
| matches_dot c : c <> line_feed -> matches Regexp.Dot (String c "")
| matches_any c : matches Regexp.Any (String c "")
| matches_cat a b s t :
    matches a s -> matches b t -> matches (Regexp.Cat a b) (s ++ t)
| matches_alt_l a b s : matches a s -> matches (Regexp.Alt a b) s
| matches_alt_r a b s : matches b s -> matches (Regexp.Alt a b) s
| matches_star_nil a : matches (Regexp.Star a) ""
| matches_star_cons a s t :
    matches a s -> matches (Regexp.Star a) t ->
    matches (Regexp.Star a) (s ++ t).

(** ** Package [server]: the [status] handler

    The handler up to the value it hands to the JSON encoder: the
    response headers it sets and the [response] map it builds from the
    records of the store ([h.db.SelectAll()]) and the handler's time
    ([h.timeNow()]).  The encoding itself and the write of an encoding
    error belong to [encoding/json] and [net/http]. *)
Module Server.





End Server.

(** ** Fixtures: concrete collaborators for the examples *)
Module Fixtures.
Import Cf.

Definition quote : string := String.String (ascii_of_N 34) "".

  (** Stand-ins for the collaborating packages: every non-empty domain
      is accepted, the owner [@] names the domain itself. *)
#[export] Instance packages : Packages := {|
    utils_CheckDomain := fun d =>
      if Strings.is_empty d then Some (Opaque "domain is empty") else None;
    utils_BuildDomainName := fun owner domain =>
      if String.eqb owner "@" then domain else owner ++ "." ++ domain;
    utils_ToString := fun domain owner provider ipVersion =>
      "[domain: " ++ domain ++ " | owner: " ++ owner ++
      " | provider: " ++ provider ++ "]";
    constants_Cloudflare := "cloudflare";
    errors_text := fun s =>
      match s with
      | ErrDomainNotValid => "domain is not valid"
      | ErrKeyNotValid => "key is not valid"
      | ErrEmailNotValid => "email address is not valid"
      | ErrUserServiceKeyNotValid => "user service key is not valid"
      | ErrZoneIdentifierNotSet => "zone identifier is not set"
      | ErrTTLNotSet => "TTL is not set"
      | ErrReceivedNoResult => "received no result"
      | ErrResultsCountReceived => "results count received"
      | ErrUnknownProvider => "unknown public IP information provider"
      end;
    ipversion_String := fun v =>
      match v with
      | IP4or6 => "ipv4 or ipv6"
      | IP4 => "ipv4"
      | IP6 => "ipv6"
      end;
    constants_UPTODATE := "up to date";
    strconv_Quote := fun s => quote ++ s ++ quote
  |}.

Definition settings (key token email usk zone : string) (ttl : Z)
      : Cloudflare.ExtraSettings :=
    Cloudflare.mkExtraSettings key token email usk zone false ttl.

  (** A decoder over four documents, named here by what they hold:
      - [token]: a token, a zone identifier and a TTL of 300;
      - [none]: a zone identifier and a TTL of 300, no credential at all;
      - [nozone]: a token and a TTL of 300, no zone identifier;
      - [nottl]: a token and a zone identifier, no TTL.
      Anything else is not a JSON document. *)
#[export] Instance json : Cloudflare.Json := {|
    Cloudflare.Unmarshal := fun data =>
      if String.eqb data "token" then
        inr (settings "" "s3cr3t" "" "" "zone-1" 300)
      else if String.eqb data "none" then
        inr (settings "" "" "" "" "zone-1" 300)
      else if String.eqb data "nozone" then
        inr (settings "" "s3cr3t" "" "" "" 300)
      else if String.eqb data "nottl" then
        inr (settings "" "s3cr3t" "" "" "zone-1" 0)
      else inl (Opaque "unexpected end of JSON input")
  |}.

  (** An in-memory zone standing for the vendor. *)
Record Stored : Type := mkStored {
    s_id : string;
    s_name : string;
    s_type : ARecordType;
    s_content : string
  }.

Record Zone : Type := mkZone {
    stored : list Stored;
    update_fails : bool     (* the vendor refuses update requests *)
  }.

Definition response (s : Stored) : RecordResponse :=
    {| ID := s_id s; resp_Content := s_content s |}.

Definition zone_list (q : RecordListParams) (zn : Zone)
      : (string + list RecordResponse) * Zone :=
    (inr (map response
            (filter (fun s => String.eqb (s_name s) (list_NameExact q) &&
                              String.eqb (s_type s) (list_Type q))
               (stored zn))),
     zn).

Definition zone_new (q : RecordNewParams) (zn : Zone)
      : (string + RecordResponse) * Zone :=
    let s := {| s_id := "rec-" ++
                        Strconv.Itoa (N.of_nat (S (List.length (stored zn))));
                s_name := Name (new_Body q);
                s_type := Type_ (new_Body q);
                s_content := Content (new_Body q) |} in
    (inr (response s), mkZone (stored zn ++ [s]) (update_fails zn)).

Definition zone_update (recordID : string) (q : RecordUpdateParams)
      (zn : Zone) : (string + RecordResponse) * Zone :=
    if update_fails zn then (inl "429 Too Many Requests", zn)
    else if existsb (fun s => String.eqb (s_id s) recordID) (stored zn) then
      let put (s : Stored) :=
        if String.eqb (s_id s) recordID then
          mkStored (s_id s) (Name (update_Body q)) (Type_ (update_Body q))
            (Content (update_Body q))
        else s in
      (inr {| ID := recordID; resp_Content := Content (update_Body q) |},
       mkZone (map put (stored zn)) (update_fails zn))
    else (inl "404 Not Found", zn).

#[export] Instance zone_service : DNSRecords Zone := {|
    Records_List := fun _ => zone_list;
    Records_New := fun _ => zone_new;
    Records_Update := fun _ => zone_update
  |}.

Definition start (zn : Zone) : World Zone := mkWorld zn [].

Definition ip_10_0_0_1 : Netip.Addr := Netip.AddrFrom4 10 0 0 1.

  (** No IPv6 suffix. *)
Definition suffix : Netip.Prefix := Netip.mkPrefix Netip.zero 0.

(** The client of a provider that holds the token [s3cr3t]. *)
Definition client : Client := [WithAPIToken "s3cr3t"].

(** The lookup for the [A] record of [home.example.com]. *)
Definition query : RecordListParams :=
  {| list_ZoneID := "zone-1"; list_Type := "A";
     list_NameExact := "home.example.com" |}.

(** The provider built from the document [token] for
      [home.example.com]. *)
Definition home : Cloudflare.Provider :=
    Cloudflare.mkProvider "example.com" "home" IP4 suffix "" "s3cr3t" "" "" "zone-1" false 300.

  (** The provider built from the document [none]. *)
Definition keyless : Cloudflare.Provider :=
    Cloudflare.mkProvider "example.com" "home" IP4 suffix "" "" "" "" "zone-1" false 300.

Definition a_record (id content : string) : Stored :=
    mkStored id "home.example.com" "A" content.

  (** Modelled from the spec: [models.History] is not part of the
      excerpt.  The spec gives it a current IP that is absent until set,
      the previous IPs oldest first, and the time of the last success;
      the duration since success is reported as [never] when there was
      none.  An absent address is Go's zero [netip.Addr]. *)
Record History : Type := mkHistory {
    currentIP : option Netip.Addr;
    previousIPs : list Netip.Addr;
    lastSuccessTime : option GoTime.Time
  }.

#[export] Instance history_ops : Models.HistoryOps History := {|
    Models.GetCurrentIP := fun h =>
      match currentIP h with Some ip => ip | None => Netip.zero end;
    Models.GetPreviousIPs := previousIPs;
    Models.GetDurationSinceSuccess := fun h now =>
      match lastSuccessTime h with
      | Some t => GoTime.String (GoTime.Round (GoTime.Sub now t) GoTime.Second)
      | None => "never"
      end
  |}.

Definition empty_history : History := mkHistory None [] None.

#[export] Instance cloudflare_ops : Records.ProviderOps Cloudflare.Provider := {|
    Records.Domain := Cloudflare.Domain;
    Records.Owner := Cloudflare.Owner;
    Records.String := Cloudflare.String;
    Records.IPVersion := Cloudflare.IPVersion_
  |}.

  (** A record registered and never attempted. *)
Definition fresh_record : Records.Record_ Cloudflare.Provider History :=
    Records.mkRecord home empty_history "" "" 0.

  (** A record whose last attempt, three seconds before the clock reads
      [10 s], failed without a message. *)
Definition failed_record : Records.Record_ Cloudflare.Provider History :=
    Records.mkRecord home empty_history "failure" "" (7 * GoTime.Second).

  (** The information providers, each named by its constructor. *)
#[export] Instance info_constructors : Info.Constructors unit string := {|
    Info.newIpinfo := fun _ => "ipinfo client";
    Info.newIP2Location := fun _ => "ip2location client"
  |}.

End Fixtures.

(** A vendor that answers from a script, whatever it is asked. *)
Module Scripted.

Record Script : Type := mkScript {
  on_list : string + list Cf.RecordResponse;
  on_new : string + Cf.RecordResponse;
  on_update : string + Cf.RecordResponse
}.

#[export] Instance scripted_service : Cf.DNSRecords Script := {|
  Cf.Records_List := fun _ _ sc => (on_list sc, sc);
  Cf.Records_New := fun _ _ sc => (on_new sc, sc);
  Cf.Records_Update := fun _ _ _ sc => (on_update sc, sc)
|}.

(** The vendor is down. *)
Definition outage : Script :=
  mkScript (inl "503 Service Unavailable") (inl "503 Service Unavailable")
    (inl "503 Service Unavailable").

(** The zone is empty and the token may not write. *)
Definition read_only : Script :=
  mkScript (inr []) (inl "403 Forbidden") (inl "403 Forbidden").

End Scripted.

(* ================================================================== *)
(** * Part II: theorems *)
(* ================================================================== *)

(** ** Strings *)
Section StringFacts.

Lemma is_empty_true (s : string) : Strings.is_empty s = true <-> s = "".
  Proof. destruct s; simpl; split; intro E; try reflexivity; discriminate. Qed.

Lemma is_empty_false (s : string) : Strings.is_empty s = false <-> s <> "".
  Proof.
    destruct s; simpl; split; intro E; try reflexivity; try discriminate.
    now elim E.
  Qed.

Lemma is_empty_spec (s : string) :
    if Strings.is_empty s then s = "" else s <> "".
  Proof. destruct s; simpl; [reflexivity | discriminate]. Qed.

Lemma append_cons_nonempty (a b : string) (c : ascii) :
    a ++ String.String c b <> "".
  Proof. destruct a; simpl; discriminate. Qed.

Lemma append_nonempty_l (a b : string) : a <> "" -> a ++ b <> "".
  Proof. destruct a; simpl; [congruence | discriminate]. Qed.

Lemma append_assoc (a b c : string) : (a ++ b) ++ c = a ++ (b ++ c).
  Proof. induction a; simpl; [reflexivity | now rewrite IHa]. Qed.

Lemma length_append (a b : string) :
    String.length (a ++ b) = (String.length a + String.length b)%nat.
  Proof. induction a; simpl; [reflexivity | now rewrite IHa]. Qed.

Lemma Contains_middle (pre sub post : string) :
    Strings.Contains (pre ++ sub ++ post) sub.
  Proof. now exists pre, post. Qed.

Lemma Contains_wrap (pre s post sub : string) :
    Strings.Contains s sub -> Strings.Contains (pre ++ s ++ post) sub.
  Proof.
    intros (a & b & ->). exists (pre ++ a), (b ++ post).
    now rewrite !append_assoc.
  Qed.

Lemma Contains_suffix (a b sub : string) :
    Strings.Contains b sub -> Strings.Contains (a ++ b) sub.
  Proof.
    intros (pre & post & ->). exists (a ++ pre), post.
    now rewrite append_assoc.
  Qed.

Lemma Hex_nonempty (n : N) : Strconv.Hex n <> "".
  Proof.
    unfold Strconv.Hex. destruct (N.to_hex_uint n); simpl; discriminate.
  Qed.

End StringFacts.

(** ** [net/netip] *)
Section NetipFacts.
Import Netip.

Lemma String_zero : String zero = "invalid IP".
  Proof. reflexivity. Qed.

Lemma groups6_start_nonempty (ip : Addr) (zeroStart zeroEnd : Z)
      (fuel : nat) :
    groups6 ip zeroStart zeroEnd (S fuel) 0 <> "".
  Proof.
    cbn [groups6]. change (8 <=? 0) with false. change (0 <? 0) with false.
    cbv iota. destruct (0 =? zeroStart).
    - discriminate.
    - change ("" ++ ?x) with x. apply append_nonempty_l, Hex_nonempty.
  Qed.

  (** The text of an address is never empty: the zero address prints as
      [invalid IP], every other one has at least a digit or a colon. *)
Lemma String_nonempty (ip : Addr) : String ip <> "".
  Proof.
    unfold String. destruct (z ip) eqn:Ez.
    - discriminate.
    - unfold string4. apply append_cons_nonempty.
    - destruct (Is4In6 ip); [discriminate |].
      unfold string6. destruct (zero_run ip) as [zs ze].
      apply append_nonempty_l, groups6_start_nonempty.
    - destruct (Is4In6 ip); [discriminate |].
      unfold string6. destruct (zero_run ip) as [zs ze].
      apply append_nonempty_l, groups6_start_nonempty.
  Qed.

End NetipFacts.

(** ** The Cloudflare provider: construction *)
Section ConstructionFacts.
Import Cf Cloudflare Regexp.
Context {PK : Packages} {JS : Json}.

Lemma keyRegex_rejects_empty : MatchString keyRegex "" = false.
  Proof. reflexivity. Qed.

Lemma regexEmail_rejects_empty : MatchString regexEmail "" = false.
  Proof. reflexivity. Qed.

  (** What [validateSettings] has checked when it returns [nil]. *)
Lemma validateSettings_nil
      (domain email key userServiceKey zoneIdentifier : string) (ttl : Z) :
    validateSettings domain email key userServiceKey zoneIdentifier ttl = None ->
    utils_CheckDomain domain = None /\
    (email <> "" \/ key <> "" ->
     MatchString keyRegex key = true /\ MatchString regexEmail email = true) /\
    (email = "" -> key = "" -> userServiceKey <> "" ->
     MatchString userServiceKeyRegex userServiceKey = true) /\
    zoneIdentifier <> "" /\ ttl <> 0.
  Proof.
    unfold validateSettings.
    destruct (utils_CheckDomain domain); [discriminate |].
    pose proof (is_empty_spec email) as Hemail.
    pose proof (is_empty_spec key) as Hkey.
    pose proof (is_empty_spec userServiceKey) as Husk.
    pose proof (is_empty_spec zoneIdentifier) as Hzone.
    destruct (Strings.is_empty email); destruct (Strings.is_empty key);
      destruct (Strings.is_empty userServiceKey);
      destruct (MatchString keyRegex key) eqn:Mkey;
      destruct (MatchString regexEmail email) eqn:Memail;
      destruct (MatchString userServiceKeyRegex userServiceKey) eqn:Musk;
      destruct (Strings.is_empty zoneIdentifier);
      destruct (ttl =? 0) eqn:Ettl;
      cbn [negb orb andb]; try discriminate; intros _;
      cbv iota in Hemail, Hkey, Husk, Hzone; apply Z.eqb_neq in Ettl;
      (split; [reflexivity |]); (split; [| split; [| now split]]);
      intros; try (now split); try reflexivity; try tauto; congruence.
  Qed.

  (** [New] copies the decoded settings into the provider it returns. *)
Lemma New_inr (data domain owner : string) (ipVersion : IPVersion)
      (ipv6Suffix : Netip.Prefix) (p : Provider) :
    New data domain owner ipVersion ipv6Suffix = inr p ->
    exists es,
      Unmarshal data = inr es /\
      validateSettings domain (Email es) (Key es) (UserServiceKey es)
        (ZoneIdentifier es) (TTL_ es) = None /\
      p = mkProvider domain owner ipVersion ipv6Suffix (Key es) (Token es)
            (Email es) (UserServiceKey es) (ZoneIdentifier es) (Proxied_ es)
            (TTL_ es).
  Proof.
    unfold New. destruct (Unmarshal data) as [err | es]; [discriminate |].
    destruct (validateSettings _ _ _ _ _ _) eqn:Ev; [discriminate |].
    intros E. injection E as <-. now exists es.
  Qed.

  (** Without any credential, client creation fails. *)
Lemma createCloudflareClient_none (p : Provider) :
    token p = "" -> email p = "" -> key p = "" -> userServiceKey p = "" ->
    createCloudflareClient p =
    inl (Opaque "no authentication method available").
  Proof.
    unfold createCloudflareClient. now intros -> -> -> ->.
  Qed.

End ConstructionFacts.

(** ** The Cloudflare provider: [Update] *)
Section UpdateFacts.
Import Cf Cloudflare.
Context {PK : Packages} {W : Type} {DNS : DNSRecords W}.

  (** Unfolding [run] on the lookup: one list request, then the switch of
      [getRecordID] on what the vendor answered. *)
Lemma run_getRecordID (p : Provider) (cfClient : Client)
      (newIP : Netip.Addr) (v : W) :
    getRecordID p cfClient newIP (mkWorld v []) =
    let '(records, v') := Records_List cfClient (listQuery p newIP) v in
    let w' := mkWorld v' [CallList cfClient (listQuery p newIP)] in
    match records with
    | inl err =>
        ("", false,
         Some (Wrap "error listing DNS records: " (Opaque err) ""), w')
    | inr [] =>
        ("", false, Some (Wrap "" (Sentinel ErrReceivedNoResult) ""), w')
    | inr ((first :: _) as result) =>
        if (1 <? List.length result)%nat then
          ("", false,
           Some (Wrap "" (Sentinel ErrResultsCountReceived)
                   (": " ++ Strconv.Itoa (N.of_nat (List.length result)) ++
                    " instead of 1")), w')
        else if String.eqb (resp_Content first) (Netip.String newIP) then
          (ID first, true, None, w')
        else (ID first, false, None, w')
    end.
  Proof.
    unfold getRecordID, bind, List_, request. simpl.
    destruct (Records_List cfClient (listQuery p newIP) v) as [[err | rs] v'].
    - reflexivity.
    - destruct rs as [| first rest]; [reflexivity |].
      destruct (1 <? List.length (first :: rest))%nat; [reflexivity |].
      destruct (String.eqb (resp_Content first) (Netip.String newIP));
        reflexivity.
  Qed.

  (** Without a usable credential [Update] stops before any request. *)
Lemma Update_without_client (p : Provider) (ip : Netip.Addr) (v : W)
      (err : error) :
    createCloudflareClient p = inl err ->
    run (Update p ip) v =
    (Netip.zero, Some (Wrap "failed to create cloudflare client: " err ""),
     v, []).
  Proof. intros E. unfold run, Update. now rewrite E. Qed.

  (** C1. When the lookup answers with exactly one record whose content
      is already the text of the requested IP, [Update] returns that IP
      with a [nil] error; the list request is the only request it sends,
      so it sends no creation and no update request. *)
Theorem Update_up_to_date_is_read_only
      (p : Provider) (ip : Netip.Addr) (cfClient : Client) (v v' : W)
      (found : RecordResponse) :
    createCloudflareClient p = inr cfClient ->
    Records_List cfClient (listQuery p ip) v = (inr [found], v') ->
    resp_Content found = Netip.String ip ->
    run (Update p ip) v =
      (ip, None, v', [CallList cfClient (listQuery p ip)]) /\
    filter mutating (snd (run (Update p ip) v)) = [].
  Proof.
    intros Eclient Elist Econtent.
    assert (E : run (Update p ip) v =
                (ip, None, v', [CallList cfClient (listQuery p ip)])).
    { unfold run, Update. rewrite Eclient. unfold bind at 1.
      rewrite run_getRecordID, Elist. cbn [List.length Nat.ltb Nat.leb].
      rewrite Econtent, String.eqb_refl. reflexivity. }
    split; [exact E | now rewrite E].
  Qed.

  (** C3. When the lookup answers with more than one record, [Update]
      returns an error whose text contains the number of records
      received, and the list request is the only request it sends: no
      record is created, none is updated, none is picked. *)
Theorem Update_ambiguous_lookup_fails
      (p : Provider) (ip : Netip.Addr) (cfClient : Client) (v v' : W)
      (found : list RecordResponse) :
    createCloudflareClient p = inr cfClient ->
    Records_List cfClient (listQuery p ip) v = (inr found, v') ->
    (1 < List.length found)%nat ->
    exists err : error,
      run (Update p ip) v =
        (Netip.zero, Some err, v', [CallList cfClient (listQuery p ip)]) /\
      Strings.Contains (Error errors_text err)
        (Strconv.Itoa (N.of_nat (List.length found))) /\
      filter mutating (snd (run (Update p ip) v)) = [].
  Proof.
    intros Eclient Elist Hmany.
    destruct found as [| first rest]; [simpl in Hmany; lia |].
    apply Nat.ltb_lt in Hmany.
    eexists.
    assert (E : run (Update p ip) v =
                (Netip.zero,
                 Some (Wrap "getting record id: "
                         (Wrap "" (Sentinel ErrResultsCountReceived)
                            (": " ++
                             Strconv.Itoa
                               (N.of_nat (List.length (first :: rest))) ++
                             " instead of 1")) ""),
                 v', [CallList cfClient (listQuery p ip)])).
    { unfold run, Update. rewrite Eclient. unfold bind at 1.
      rewrite run_getRecordID, Elist. rewrite Hmany. reflexivity. }
    split; [exact E |]. split; [| now rewrite E].
    cbn [Error].
    apply Contains_wrap. apply (Contains_suffix ""). apply Contains_suffix.
    exists ": ", " instead of 1". reflexivity.
  Qed.

End UpdateFacts.

(** ** The Cloudflare provider: a lookup that finds nothing *)
Section NotFoundFacts.
Import Cf Cloudflare.
Context {PK : Packages} {W : Type} {DNS : DNSRecords W}.

(** After an empty lookup [Update] sends the creation request; it stops
    there when the vendor refuses it. *)
Lemma Update_not_found_creation_refused
    (p : Provider) (ip : Netip.Addr) (cfClient : Client) (v v1 v2 : W)
    (refusal : string) :
  createCloudflareClient p = inr cfClient ->
  Records_List cfClient (listQuery p ip) v = (inr [], v1) ->
  Records_New cfClient (creation p ip) v1 = (inl refusal, v2) ->
  run (Update p ip) v =
  (Netip.zero,
   Some (Wrap "creating record: "
           (Wrap "error creating DNS record: " (Opaque refusal) "") ""),
   v2,
   [CallList cfClient (listQuery p ip); CallNew cfClient (creation p ip)]).
Proof.
  intros Eclient Elist Enew.
  unfold run, Update. rewrite Eclient. unfold bind at 1.
  rewrite run_getRecordID, Elist. cbn [errIs Is sentinel_eqb].
  unfold createRecord, bind, New_, request. cbn [vendor calls].
  fold (creation p ip). rewrite Enew. reflexivity.
Qed.

(** After an empty lookup and an accepted creation, [Update] goes on to
    the update request for the record just created; what it returns is
    decided by the answer to that request. *)
Lemma Update_not_found_created
    (p : Provider) (ip : Netip.Addr) (cfClient : Client) (v v1 v2 v3 : W)
    (created : RecordResponse) (answer : string + RecordResponse) :
  createCloudflareClient p = inr cfClient ->
  Records_List cfClient (listQuery p ip) v = (inr [], v1) ->
  Records_New cfClient (creation p ip) v1 = (inr created, v2) ->
  Records_Update cfClient (ID created) (change p ip) v2 = (answer, v3) ->
  run (Update p ip) v =
  (match answer with
   | inl refusal =>
       (Netip.zero, Some (Wrap "updating DNS record: " (Opaque refusal) ""))
   | inr _ => (ip, None)
   end,
   v3,
   [CallList cfClient (listQuery p ip); CallNew cfClient (creation p ip);
    CallUpdate cfClient (ID created) (change p ip)]).
Proof.
  intros Eclient Elist Enew Eupdate.
  unfold run, Update. rewrite Eclient. unfold bind at 1.
  rewrite run_getRecordID, Elist. cbn [errIs Is sentinel_eqb].
  unfold createRecord, updateRecord, bind, New_, Update_, request.
  cbn [vendor calls]. fold (creation p ip). rewrite Enew.
  cbv beta iota zeta delta [ret vendor calls app].
  fold (change p ip). rewrite Eupdate.
  destruct answer; reflexivity.
Qed.

(** C2 (amended). When the lookup finds no record, [Update] sends exactly
    one creation request; it carries the zone, the domain name, the
    record type of the IP family ([AAAA] for IPv6, [A] otherwise), the
    text of the requested IP, the configured TTL and the proxied flag.
    When the vendor accepts the creation, [Update] then sends one update
    request for the identifier of the created record with the same body,
    and returns the requested IP exactly when that second request is
    accepted too; when it is refused [Update] returns its error. *)
Theorem Update_not_found_creates_then_updates
    (p : Provider) (ip : Netip.Addr) (cfClient : Client) (v v1 : W) :
  createCloudflareClient p = inr cfClient ->
  Records_List cfClient (listQuery p ip) v = (inr [], v1) ->
  let body :=
    {| Name := BuildDomainName p;
       Type_ := if Netip.Is6 ip then "AAAA" else "A";
       Content := Netip.String ip;
       TTL := ttl p;
       Cf.Proxied := proxied p |} in
  let '(result, _, sent) := run (Update p ip) v in
  filter is_create sent =
    [CallNew cfClient {| new_ZoneID := zoneIdentifier p; new_Body := body |}] /\
  (forall created v2 answer v3,
     Records_New cfClient (creation p ip) v1 = (inr created, v2) ->
     Records_Update cfClient (ID created) (change p ip) v2 = (answer, v3) ->
     filter is_update sent =
       [CallUpdate cfClient (ID created)
          {| update_ZoneID := zoneIdentifier p; update_Body := body |}] /\
     match answer with
     | inr _ => result = (ip, None)
     | inl refusal =>
         result =
         (Netip.zero,
          Some (Wrap "updating DNS record: " (Opaque refusal) ""))
     end).
Proof.
  intros Eclient Elist body.
  destruct (Records_New cfClient (creation p ip) v1) as [[refusal | created] v2]
    eqn:Enew.
  - rewrite (Update_not_found_creation_refused p ip cfClient v v1 v2 refusal
               Eclient Elist Enew).
    split; [reflexivity |]. intros created v2' answer v3 E. discriminate.
  - destruct (Records_Update cfClient (ID created) (change p ip) v2)
      as [answer v3] eqn:Eupdate.
    rewrite (Update_not_found_created p ip cfClient v v1 v2 v3 created answer
               Eclient Elist Enew Eupdate).
    split; [reflexivity |].
    intros created' v2' answer' v3' E1 E2.
    injection E1 as <- <-. rewrite Eupdate in E2. injection E2 as <- <-.
    split; [reflexivity |]. destruct answer; reflexivity.
Qed.

End NotFoundFacts.

(** ** The Cloudflare provider: what construction guarantees *)
Section ConstructionClaims.
Import Cf Cloudflare Regexp.
Context {PK : Packages} {JS : Json}.

(** C4 (amended). [New] validates the email, the key and the user service
    key, never the token.  A provider it returns with at least one
    credential field set has a usable credential mode (a token; or a key
    and an email that both match their patterns; or a user service key
    that matches its pattern), and client creation succeeds for it.  A
    provider it returns with no credential field set is accepted all the
    same, and every [Update] on it fails with "no authentication method
    available" before any request is sent. *)
Theorem New_checks_credentials_but_not_their_presence
    (data domain owner : string) (ipVersion : IPVersion)
    (ipv6Suffix : Netip.Prefix) (p : Provider) :
  New data domain owner ipVersion ipv6Suffix = inr p ->
  (token p <> "" \/ email p <> "" \/ key p <> "" \/ userServiceKey p <> "" ->
   (token p <> "" \/
    (email p <> "" /\ key p <> "" /\
     MatchString keyRegex (key p) = true /\
     MatchString regexEmail (email p) = true) \/
    (userServiceKey p <> "" /\
     MatchString userServiceKeyRegex (userServiceKey p) = true)) /\
   exists cfClient, createCloudflareClient p = inr cfClient) /\
  (token p = "" -> email p = "" -> key p = "" -> userServiceKey p = "" ->
   forall (W : Type) (DNS : DNSRecords W) (ip : Netip.Addr) (v : W),
     run (Update p ip) v =
     (Netip.zero,
      Some (Wrap "failed to create cloudflare client: "
              (Opaque "no authentication method available") ""),
      v, [])).
Proof.
  intros Enew.
  destruct (New_inr _ _ _ _ _ _ Enew) as (es & _ & Evalid & ->).
  apply validateSettings_nil in Evalid.
  destruct Evalid as (_ & Hpair & Husk & _ & _).
  cbn [token email key userServiceKey].
  assert (Hboth : Email es <> "" \/ Key es <> "" ->
                  Email es <> "" /\ Key es <> "" /\
                  MatchString keyRegex (Key es) = true /\
                  MatchString regexEmail (Email es) = true).
  { intros Hone. destruct (Hpair Hone) as [Hk He].
    repeat split; try assumption.
    - intros E. rewrite E, regexEmail_rejects_empty in He. discriminate.
    - intros E. rewrite E, keyRegex_rejects_empty in Hk. discriminate. }
  split.
  - intros Hsome.
    assert (Hmode :
      Token es <> "" \/
      (Email es <> "" /\ Key es <> "" /\
       MatchString keyRegex (Key es) = true /\
       MatchString regexEmail (Email es) = true) \/
      (UserServiceKey es <> "" /\
       MatchString userServiceKeyRegex (UserServiceKey es) = true)).
    { pose proof (is_empty_spec (Token es)) as Ht.
      destruct (Strings.is_empty (Token es)); [| now left]. right.
      pose proof (is_empty_spec (Email es)) as He.
      destruct (Strings.is_empty (Email es));
        [| left; apply Hboth; now left].
      pose proof (is_empty_spec (Key es)) as Hk.
      destruct (Strings.is_empty (Key es));
        [| left; apply Hboth; now right].
      right.
      assert (Hu : UserServiceKey es <> "")
        by (destruct Hsome as [E | [E | [E | E]]]; congruence).
      split; [exact Hu | now apply Husk]. }
    split; [exact Hmode |].
    unfold createCloudflareClient. cbn [token email key userServiceKey].
    destruct (Strings.is_empty (Token es)) eqn:Bt; [| eexists; reflexivity].
    apply is_empty_true in Bt. cbn [negb].
    destruct (Strings.is_empty (Email es)) eqn:Be;
      destruct (Strings.is_empty (Key es)) eqn:Bk; cbn [negb andb];
      try (eexists; reflexivity);
      destruct (Strings.is_empty (UserServiceKey es)) eqn:Bu; cbn [negb];
      try (eexists; reflexivity);
      apply is_empty_true in Bu;
      try apply is_empty_true in Be; try apply is_empty_true in Bk;
      exfalso;
      destruct Hmode as [Hm | [(Hm1 & Hm2 & _) | (Hm & _)]]; congruence.
  - intros Et Ee Ek Eu W DNS ip v.
    apply Update_without_client, createCloudflareClient_none; assumption.
Qed.

(** C7. A configuration whose zone identifier is empty or whose TTL is
    zero makes [New] return an error and no provider.  Hence every
    provider that [New] does return has a zone identifier and a non-zero
    TTL: the two checks are made at construction and [Update] has none
    of them left to fail. *)
Theorem New_rejects_missing_zone_or_ttl
    (data domain owner : string) (ipVersion : IPVersion)
    (ipv6Suffix : Netip.Prefix) (es : ExtraSettings) :
  Unmarshal data = inr es ->
  ZoneIdentifier es = "" \/ TTL_ es = 0 ->
  (exists err, New data domain owner ipVersion ipv6Suffix = inl err) /\
  (forall p, New data domain owner ipVersion ipv6Suffix <> inr p) /\
  (forall data' domain' owner' ipVersion' ipv6Suffix' p,
     New data' domain' owner' ipVersion' ipv6Suffix' = inr p ->
     zoneIdentifier p <> "" /\ ttl p <> 0).
Proof.
  intros Edata Hmissing.
  assert (Hbuilt : forall data' domain' owner' ipVersion' ipv6Suffix' p,
             New data' domain' owner' ipVersion' ipv6Suffix' = inr p ->
             zoneIdentifier p <> "" /\ ttl p <> 0).
  { intros data' domain' owner' ipVersion' ipv6Suffix' p Enew.
    destruct (New_inr _ _ _ _ _ _ Enew) as (es' & _ & Evalid & ->).
    apply validateSettings_nil in Evalid.
    destruct Evalid as (_ & _ & _ & Hzone & Httl). now split. }
  assert (Hnone : forall p, New data domain owner ipVersion ipv6Suffix <> inr p).
  { intros p Enew. destruct (Hbuilt _ _ _ _ _ _ Enew) as [Hzone Httl].
    destruct (New_inr _ _ _ _ _ _ Enew) as (es' & Edata' & _ & ->).
    rewrite Edata in Edata'. injection Edata' as <-.
    cbn [zoneIdentifier ttl] in Hzone, Httl. tauto. }
  split; [| split; assumption].
  destruct (New data domain owner ipVersion ipv6Suffix) as [err | p] eqn:Enew.
  - now exists err.
  - now elim (Hnone p).
Qed.

End ConstructionClaims.

(** ** The record projection *)
Section ProjectionFacts.
Import Records.
Context {PK : Packages}.
Context {P H : Type} {PO : ProviderOps P} {HO : Models.HistoryOps H}.

(** C5 (amended). The projected [current_ip] is the text that
    [netip.Addr] gives for the current IP of the history.  When the
    history has no current IP, so that it answers with the zero address,
    this is the literal [invalid IP]; the field is never the empty
    string. *)
Theorem JSON_current_ip_is_address_text
    (clock : GoTime.Time) (r : Record_ P H) (now : GoTime.Time) :
  Models.CurrentIP (JSON clock r now) =
    Netip.String (Models.GetCurrentIP (History r)) /\
  (Models.GetCurrentIP (History r) = Netip.zero ->
   Models.CurrentIP (JSON clock r now) = "invalid IP") /\
  Models.CurrentIP (JSON clock r now) <> "".
Proof.
  cbn [JSON Models.CurrentIP]. split; [reflexivity |]. split.
  - intros ->. reflexivity.
  - apply String_nonempty.
Qed.

(** C6 (amended). For a record with a non-empty status the projected
    [status] is the state, a space, the detail, a comma and a space, and
    the age of the last attempt rounded to seconds followed by [ago].
    The detail is the message in parentheses when the message is not
    empty and nothing at all when it is empty; for the up-to-date state
    the message is first replaced by the time without IP change. *)
Theorem JSON_status_composed
    (clock : GoTime.Time) (r : Record_ P H) (now : GoTime.Time) :
  Status r <> "" ->
  let age :=
    GoTime.String (GoTime.Round (GoTime.Sub clock (Time r)) GoTime.Second) in
  (Status r <> constants_UPTODATE -> Message r = "" ->
   Models.Status (JSON clock r now) =
   Status r ++ " " ++ ", " ++ age ++ " ago") /\
  (Status r <> constants_UPTODATE -> Message r <> "" ->
   Models.Status (JSON clock r now) =
   Status r ++ " " ++ "(" ++ Message r ++ ")" ++ ", " ++ age ++ " ago") /\
  (Status r = constants_UPTODATE ->
   Models.Status (JSON clock r now) =
   Status r ++ " " ++
   "(" ++ "no IP change for " ++
          Models.GetDurationSinceSuccess (History r) now ++ ")" ++
   ", " ++ age ++ " ago").
Proof.
  intros Hset age.
  apply is_empty_false in Hset.
  cbn [JSON Models.Status]. rewrite Hset.
  unfold shownMessage, Records.age, GoTime.Since. fold age.
  repeat split.
  - intros Hstate ->. apply String.eqb_neq in Hstate. rewrite Hstate.
    reflexivity.
  - intros Hstate Hmsg. apply String.eqb_neq in Hstate. rewrite Hstate.
    apply is_empty_false in Hmsg. rewrite Hmsg. cbn [negb].
    now rewrite !append_assoc.
  - intros Hstate. apply String.eqb_eq in Hstate. rewrite Hstate.
    cbn [append Strings.is_empty negb].
    now rewrite !append_assoc.
Qed.

(** C10. For a record whose status is empty the projected [status] is
    the literal [N/A], which is none of the composed strings: those end
    in a comma, a space, an age and [ago], and are longer. *)
Theorem JSON_unset_status_is_not_available
    (clock : GoTime.Time) (r : Record_ P H) (now : GoTime.Time) :
  Status r = "" ->
  Models.Status (JSON clock r now) = "N/A" /\
  forall state message age : string,
    Models.Status (JSON clock r now) <>
    state ++ " " ++ message ++ ", " ++ age ++ " ago".
Proof.
  intros Hunset. cbn [JSON Models.Status]. rewrite Hunset.
  cbn [Strings.is_empty]. split; [reflexivity |].
  intros state message age E.
  apply (f_equal String.length) in E.
  rewrite !length_append in E. cbn [String.length NotAvailable] in E. lia.
Qed.

End ProjectionFacts.

(** ** The public-IP information providers *)
Section InfoFacts.
Import Info.

Lemma known_In (provider : Provider) (possibles : list Provider) :
  known provider possibles = true <-> In provider possibles.
Proof.
  induction possibles as [| possible rest IH]; simpl.
  - split; [discriminate | tauto].
  - destruct (String.eqb provider possible) eqn:E.
    + apply String.eqb_eq in E. subst. tauto.
    + apply String.eqb_neq in E. rewrite IH. split; [tauto |].
      intros [E' | HIn]; [congruence | exact HIn].
Qed.

Lemma ValidateProvider_nil (provider : Provider) :
  ValidateProvider provider = None <-> In provider ListProviders.
Proof.
  unfold ValidateProvider. rewrite <- known_In.
  destruct (known provider ListProviders); split;
    intros E; try reflexivity; discriminate.
Qed.

(** C8. [ValidateProvider] returns [nil] exactly for the names of
    [ListProviders], which are [ipinfo] and [ip2location]; for each name
    it accepts, [newProvider] returns a provider and does not panic. *)
Theorem newProvider_returns_for_validated_names
    {C I : Type} {K : Constructors C I} (providerName : Provider)
    (client : C) :
  (ValidateProvider providerName = None <-> In providerName ListProviders) /\
  (In providerName ListProviders <->
   providerName = "ipinfo" \/ providerName = "ip2location") /\
  (ValidateProvider providerName = None ->
   (exists provider : I,
      newProvider providerName client = Returned provider) /\
   (forall msg, newProvider providerName client <> Panicked msg)).
Proof.
  assert (Hnames : In providerName ListProviders <->
                   providerName = "ipinfo" \/ providerName = "ip2location").
  { split.
    - intros [E | [E | []]]; [left | right]; now rewrite <- E.
    - intros [-> | ->]; [left | right; left]; reflexivity. }
  split; [apply ValidateProvider_nil |]. split; [exact Hnames |].
  intros Hvalid. apply ValidateProvider_nil, Hnames in Hvalid.
  destruct Hvalid as [-> | ->]; split;
    try (eexists; reflexivity); intros msg; discriminate.
Qed.

End InfoFacts.

(** ** Examples on the fixtures *)
Section Examples.
Import Fixtures Cf.

(** C1 on a zone that already holds [10.0.0.1] for [home.example.com]. *)
Lemma Update_up_to_date_example :
  let zn := mkZone [a_record "r1" "10.0.0.1"] false in
  Cloudflare.createCloudflareClient home = inr client /\
  Records_List client (Cloudflare.listQuery home ip_10_0_0_1) zn =
    (inr [response (a_record "r1" "10.0.0.1")], zn) /\
  run (Cloudflare.Update home ip_10_0_0_1) zn =
    (ip_10_0_0_1, None, zn, [CallList client query]) /\
  filter mutating (snd (run (Cloudflare.Update home ip_10_0_0_1) zn)) = [].
Proof.
  intros zn. split; [reflexivity |]. split; [reflexivity |].
  exact (Update_up_to_date_is_read_only home ip_10_0_0_1 client zn zn
           (response (a_record "r1" "10.0.0.1")) eq_refl eq_refl eq_refl).
Defined.

(** C3 on a zone that holds two [A] records for [home.example.com]. *)
Lemma Update_ambiguous_example :
  let zn := mkZone [a_record "r1" "10.0.0.2"; a_record "r2" "10.0.0.1"] false in
  exists err : error,
    run (Cloudflare.Update home ip_10_0_0_1) zn =
      (Netip.zero, Some err, zn, [CallList client query]) /\
    Strings.Contains (Error errors_text err) "2" /\
    filter mutating (snd (run (Cloudflare.Update home ip_10_0_0_1) zn)) = [].
Proof.
  intros zn.
  assert (Hmany : (1 < 2)%nat) by lia.
  exact (Update_ambiguous_lookup_fails home ip_10_0_0_1 client zn zn
           [response (a_record "r1" "10.0.0.2");
            response (a_record "r2" "10.0.0.1")] eq_refl eq_refl Hmany).
Defined.

(** C2 (amended) on an empty zone: one creation, then one update of the
    created record, and the requested IP is returned. *)
Lemma Update_not_found_example :
  let zn := mkZone [] false in
  let body :=
    {| Name := "home.example.com"; Type_ := "A"; Content := "10.0.0.1";
       TTL := 300; Proxied := false |} in
  let '(result, _, sent) := run (Cloudflare.Update home ip_10_0_0_1) zn in
  filter is_create sent =
    [CallNew client {| new_ZoneID := "zone-1"; new_Body := body |}] /\
  (forall created v2 answer v3,
     Records_New client (Cloudflare.creation home ip_10_0_0_1) zn =
       (inr created, v2) ->
     Records_Update client (ID created) (Cloudflare.change home ip_10_0_0_1) v2 =
       (answer, v3) ->
     filter is_update sent =
       [CallUpdate client (ID created)
          {| update_ZoneID := "zone-1"; update_Body := body |}] /\
     match answer with
     | inr _ => result = (ip_10_0_0_1, None)
     | inl refusal =>
         result =
         (Netip.zero,
          Some (Wrap "updating DNS record: " (Opaque refusal) ""))
     end).
Proof.
  intros zn.
  exact (Update_not_found_creates_then_updates home ip_10_0_0_1 client zn zn
           eq_refl eq_refl).
Defined.

(** C2 as stated fails: on an empty zone whose vendor refuses updates,
    the lookup finds nothing and the creation succeeds, yet [Update]
    returns an error and not the requested IP. *)
Lemma Update_created_record_but_returned_error :
  let zn := mkZone [] true in
  Records_List client (Cloudflare.listQuery home ip_10_0_0_1) zn =
    (inr [], zn) /\
  Records_New client (Cloudflare.creation home ip_10_0_0_1) zn =
    (inr (response (a_record "rec-1" "10.0.0.1")),
     mkZone [a_record "rec-1" "10.0.0.1"] true) /\
  fst (fst (run (Cloudflare.Update home ip_10_0_0_1) zn)) =
    (Netip.zero,
     Some (Wrap "updating DNS record: " (Opaque "429 Too Many Requests") "")) /\
  fst (fst (run (Cloudflare.Update home ip_10_0_0_1) zn)) <>
    (ip_10_0_0_1, None).
Proof.
  intros zn. repeat split; try reflexivity. discriminate.
Qed.

(** C4 (amended) on the document [token]. *)
Lemma New_token_example :
  Cloudflare.New "token" "example.com" "home" IP4 suffix = inr home /\
  exists cfClient, Cloudflare.createCloudflareClient home = inr cfClient.
Proof.
  split; [reflexivity |].
  assert (Htoken : Cloudflare.token home <> "") by discriminate.
  exact (proj2 (proj1 (New_checks_credentials_but_not_their_presence
                         "token" "example.com" "home" IP4 suffix home eq_refl)
                  (or_introl Htoken))).
Defined.

(** C4 as stated fails: the document [none] has no credential at all,
    [New] accepts it, and [Update] on the provider fails for lack of an
    authentication method. *)
Lemma New_accepts_no_credentials :
  let zn := mkZone [] false in
  Cloudflare.New "none" "example.com" "home" IP4 suffix = inr keyless /\
  Cloudflare.createCloudflareClient keyless =
    inl (Opaque "no authentication method available") /\
  run (Cloudflare.Update keyless ip_10_0_0_1) zn =
    (Netip.zero,
     Some (Wrap "failed to create cloudflare client: "
             (Opaque "no authentication method available") ""),
     zn, []).
Proof. repeat split. Qed.

(** C7 on the documents [nozone] and [nottl]. *)
Lemma New_rejects_example :
  (exists err,
     Cloudflare.New "nozone" "example.com" "home" IP4 suffix = inl err) /\
  (exists err,
     Cloudflare.New "nottl" "example.com" "home" IP4 suffix = inl err).
Proof.
  split.
  - exact (proj1 (New_rejects_missing_zone_or_ttl "nozone" "example.com"
                    "home" IP4 suffix (settings "" "s3cr3t" "" "" "" 300)
                    eq_refl (or_introl eq_refl))).
  - exact (proj1 (New_rejects_missing_zone_or_ttl "nottl" "example.com"
                    "home" IP4 suffix (settings "" "s3cr3t" "" "" "zone-1" 0)
                    eq_refl (or_intror eq_refl))).
Defined.

(** C5 (amended) on a record whose history holds [10.0.0.1]. *)
Lemma JSON_current_ip_example :
  let r := Records.mkRecord home
             (mkHistory (Some ip_10_0_0_1) [] (Some 0)) "success" "" 0 in
  Models.CurrentIP (Records.JSON 0 r 0) = "10.0.0.1" /\
  Models.CurrentIP (Records.JSON 0 fresh_record 0) = "invalid IP".
Proof.
  split.
  - exact (proj1 (JSON_current_ip_is_address_text 0
                    (Records.mkRecord home
                       (mkHistory (Some ip_10_0_0_1) [] (Some 0))
                       "success" "" 0) 0)).
  - exact (proj1 (proj2 (JSON_current_ip_is_address_text 0 fresh_record 0))
             eq_refl).
Defined.

(** C5 as stated fails: a record that never had a current IP projects
    [invalid IP], not the empty string. *)
Lemma JSON_current_ip_of_fresh_record_not_empty :
  currentIP (Records.History fresh_record) = None /\
  Models.CurrentIP (Records.JSON 0 fresh_record 0) = "invalid IP" /\
  Models.CurrentIP (Records.JSON 0 fresh_record 0) <> "".
Proof. repeat split. discriminate. Qed.

(** C6 (amended) on a failed record without message, three seconds
    after its attempt. *)
Lemma JSON_status_example :
  Records.Status failed_record <> "" /\
  Models.Status
    (Records.JSON (10 * GoTime.Second) failed_record (10 * GoTime.Second)) =
  "failure , 3s ago".
Proof.
  assert (Hset : Records.Status failed_record <> "") by discriminate.
  assert (Hstate : Records.Status failed_record <> constants_UPTODATE)
    by discriminate.
  split; [exact Hset |].
  exact (proj1 (JSON_status_composed (10 * GoTime.Second) failed_record
                  (10 * GoTime.Second) Hset) Hstate eq_refl).
Defined.

(** C6 as stated fails: with an empty message the projected status has
    no parentheses, so it is not the state followed by the message in
    parentheses and the age. *)
Lemma JSON_status_without_message_has_no_parentheses :
  let r := failed_record in
  let clock := 10 * GoTime.Second in
  Records.Status r <> "" /\
  Records.Message r = "" /\
  GoTime.String (GoTime.Round (GoTime.Since clock (Records.Time r))
                   GoTime.Second) = "3s" /\
  Models.Status (Records.JSON clock r clock) = "failure , 3s ago" /\
  Models.Status (Records.JSON clock r clock) <>
    Records.Status r ++ " (" ++ Records.Message r ++ "), " ++ "3s" ++ " ago".
Proof. repeat split; discriminate. Qed.

(** C10 on a record that was never attempted. *)
Lemma JSON_unset_status_example :
  Records.Status fresh_record = "" /\
  Models.Status (Records.JSON 0 fresh_record 0) = "N/A".
Proof.
  split; [reflexivity |].
  exact (proj1 (JSON_unset_status_is_not_available 0 fresh_record 0 eq_refl)).
Defined.

(** C8 on the name [ip2location]. *)
Lemma newProvider_example :
  Info.ValidateProvider "ip2location" = None /\
  exists provider : string,
    Info.newProvider "ip2location" tt = Returned provider.
Proof.
  split; [reflexivity |].
  exact (proj1 (proj2 (proj2 (newProvider_returns_for_validated_names
                                "ip2location" tt)) eq_refl)).
Defined.

End Examples.

(* ================================================================== *)
(** * Part III: further properties of the code *)
(* ================================================================== *)

(** ** [Update]: every path *)
Section UpdatePaths.
Import Cf Cloudflare.
Context {PK : Packages} {W : Type} {DNS : DNSRecords W}.

(** [Update] run against any vendor, path by path. *)
Lemma run_Update (p : Provider) (ip : Netip.Addr) (v : W) :
  run (Update p ip) v =
  match createCloudflareClient p with
  | inl err =>
      (Netip.zero, Some (Wrap "failed to create cloudflare client: " err ""),
       v, [])
  | inr c =>
      let lookup := CallList c (listQuery p ip) in
      let '(records, v1) := Records_List c (listQuery p ip) v in
      match records with
      | inl e =>
          (Netip.zero,
           Some (Wrap "getting record id: "
                   (Wrap "error listing DNS records: " (Opaque e) "") ""),
           v1, [lookup])
      | inr [] =>
          let '(made, v2) := Records_New c (creation p ip) v1 in
          match made with
          | inl e =>
              (Netip.zero,
               Some (Wrap "creating record: "
                       (Wrap "error creating DNS record: " (Opaque e) "") ""),
               v2, [lookup; CallNew c (creation p ip)])
          | inr created =>
              let '(answer, v3) :=
                Records_Update c (ID created) (change p ip) v2 in
              (match answer with
               | inl e => refused_update e
               | inr _ => (ip, None)
               end,
               v3,
               [lookup; CallNew c (creation p ip);
                CallUpdate c (ID created) (change p ip)])
          end
      | inr ((first :: _) as result) =>
          if (1 <? List.length result)%nat then
            (Netip.zero,
             Some (Wrap "getting record id: "
                     (Wrap "" (Sentinel ErrResultsCountReceived)
                        (": " ++
                         Strconv.Itoa (N.of_nat (List.length result)) ++
                         " instead of 1")) ""),
             v1, [lookup])
          else if String.eqb (resp_Content first) (Netip.String ip) then
            (ip, None, v1, [lookup])
          else
            let '(answer, v3) :=
              Records_Update c (ID first) (change p ip) v1 in
            (match answer with
             | inl e => refused_update e
             | inr _ => (ip, None)
             end,
             v3, [lookup; CallUpdate c (ID first) (change p ip)])
      end
  end.
Proof.
  destruct (createCloudflareClient p) as [err | c] eqn:Eclient.
  - now apply Update_without_client.
  - cbv zeta.
    destruct (Records_List c (listQuery p ip) v) as [[e | rs] v1] eqn:Elist.
    + unfold run, Update. rewrite Eclient. unfold bind at 1.
      rewrite run_getRecordID, Elist. reflexivity.
    + destruct rs as [| first rest].
      * destruct (Records_New c (creation p ip) v1) as [[e | created] v2]
          eqn:Enew.
        -- now apply Update_not_found_creation_refused with (v1 := v1).
        -- destruct (Records_Update c (ID created) (change p ip) v2)
             as [answer v3] eqn:Eupdate.
           rewrite (Update_not_found_created p ip c v v1 v2 v3 created answer
                      Eclient Elist Enew Eupdate).
           destruct answer; reflexivity.
      * unfold run, Update. rewrite Eclient. unfold bind at 1.
        rewrite run_getRecordID, Elist.
        destruct (1 <? List.length (first :: rest))%nat; [reflexivity |].
        destruct (String.eqb (resp_Content first) (Netip.String ip));
          [reflexivity |].
        cbn [errIs]. unfold updateRecord, bind, Update_, request.
        cbv beta iota zeta delta [ret vendor calls app].
        fold (change p ip).
        destruct (Records_Update c (ID first) (change p ip) v1)
          as [answer v3].
        destruct answer; reflexivity.
Qed.

End UpdatePaths.

(** ** [Update]: the remaining outcomes and what holds on all of them *)
Section UpdateProperties.
Import Cf Cloudflare.
Context {PK : Packages} {W : Type} {DNS : DNSRecords W}.

(** X1. When the lookup finds one record whose content differs from the
    requested IP, [Update] sends one update request for that record's
    identifier with the new body and no creation request; it returns the
    requested IP when the vendor accepts, and the vendor's refusal
    wrapped as "updating DNS record: ..." otherwise. *)
Theorem Update_changes_the_found_record
    (p : Provider) (ip : Netip.Addr) (c : Client) (v v1 v2 : W)
    (found : RecordResponse) (answer : string + RecordResponse) :
  createCloudflareClient p = inr c ->
  Records_List c (listQuery p ip) v = (inr [found], v1) ->
  resp_Content found <> Netip.String ip ->
  Records_Update c (ID found) (change p ip) v1 = (answer, v2) ->
  run (Update p ip) v =
    (match answer with
     | inl refusal =>
         (Netip.zero,
          Some (Wrap "updating DNS record: " (Opaque refusal) ""))
     | inr _ => (ip, None)
     end,
     v2,
     [CallList c (listQuery p ip); CallUpdate c (ID found) (change p ip)]) /\
  filter is_create (snd (run (Update p ip) v)) = [].
Proof.
  intros Eclient Elist Hdiff Eupdate.
  apply String.eqb_neq in Hdiff.
  assert (E : run (Update p ip) v =
    (match answer with
     | inl refusal => refused_update refusal
     | inr _ => (ip, None)
     end,
     v2,
     [CallList c (listQuery p ip); CallUpdate c (ID found) (change p ip)])).
  { rewrite run_Update, Eclient. cbv zeta. rewrite Elist.
    cbn [List.length Nat.ltb Nat.leb]. rewrite Hdiff, Eupdate. reflexivity. }
  split; [exact E | now rewrite E].
Qed.

(** X2. When the lookup itself fails, [Update] returns an error whose
    text is "getting record id: error listing DNS records: " followed by
    the vendor's text.  That error is never taken for the not-found
    signal, whatever the vendor wrote, so nothing is created or updated. *)
Theorem Update_lookup_failure_is_not_a_missing_record
    (p : Provider) (ip : Netip.Addr) (c : Client) (v v1 : W)
    (failure : string) :
  createCloudflareClient p = inr c ->
  Records_List c (listQuery p ip) v = (inl failure, v1) ->
  exists err : error,
    run (Update p ip) v =
      (Netip.zero, Some err, v1, [CallList c (listQuery p ip)]) /\
    Error errors_text err =
      "getting record id: error listing DNS records: " ++ failure /\
    Is err ErrReceivedNoResult = false /\
    filter mutating (snd (run (Update p ip) v)) = [].
Proof.
  intros Eclient Elist.
  eexists. rewrite run_Update, Eclient. cbv zeta. rewrite Elist.
  split; [reflexivity |]. split; [| split; reflexivity].
  cbn [Error]. rewrite !append_assoc.
  assert (Hnil : forall s : string, s ++ "" = s)
    by (induction s as [| a s IH]; simpl; [| rewrite IH]; reflexivity).
  now rewrite !Hnil.
Qed.

(** X3. When the lookup finds nothing and the vendor refuses the
    creation, [Update] stops: it sends no update request and returns
    "creating record: error creating DNS record: " followed by the
    vendor's text. *)
Theorem Update_stops_after_refused_creation
    (p : Provider) (ip : Netip.Addr) (c : Client) (v v1 v2 : W)
    (refusal : string) :
  createCloudflareClient p = inr c ->
  Records_List c (listQuery p ip) v = (inr [], v1) ->
  Records_New c (creation p ip) v1 = (inl refusal, v2) ->
  exists err : error,
    run (Update p ip) v =
      (Netip.zero, Some err, v2,
       [CallList c (listQuery p ip); CallNew c (creation p ip)]) /\
    Error errors_text err =
      "creating record: error creating DNS record: " ++ refusal /\
    filter is_update (snd (run (Update p ip) v)) = [].
Proof.
  intros Eclient Elist Enew.
  eexists. rewrite run_Update, Eclient. cbv zeta. rewrite Elist, Enew.
  split; [reflexivity |]. split; [| reflexivity].
  cbn [Error]. rewrite !append_assoc.
  assert (Hnil : forall s : string, s ++ "" = s)
    by (induction s as [| a s IH]; simpl; [| rewrite IH]; reflexivity).
  now rewrite !Hnil.
Qed.

(** X4. Whatever the vendor does, [Update] returns either the requested
    IP with a [nil] error or the zero address with an error: never
    another address, never an address together with an error. *)
Theorem Update_returns_ip_or_error
    (p : Provider) (ip : Netip.Addr) (v : W) :
  let result := fst (fst (run (Update p ip) v)) in
  result = (ip, None) \/ exists err, result = (Netip.zero, Some err).
Proof.
  cbv zeta. rewrite run_Update.
  destruct (createCloudflareClient p) as [err | c]; [right; now eexists |].
  cbv zeta.
  destruct (Records_List c (listQuery p ip) v) as [[e | rs] v1];
    [right; now eexists |].
  destruct rs as [| first rest].
  - destruct (Records_New c (creation p ip) v1) as [[e | created] v2];
      [right; now eexists |].
    destruct (Records_Update c (ID created) (change p ip) v2)
      as [[e | ok] v3]; [right; now eexists | now left].
  - destruct (1 <? List.length (first :: rest))%nat; [right; now eexists |].
    destruct (String.eqb (resp_Content first) (Netip.String ip));
      [now left |].
    destruct (Records_Update c (ID first) (change p ip) v1)
      as [[e | ok] v3]; [right; now eexists | now left].
Qed.

(** X5. Whatever the vendor does, the requests of one [Update] are, in
    order: nothing; or a lookup, then possibly one creation, then
    possibly one update.  So at most three requests, at most one
    creation, at most one update, never a change before the lookup; and
    each request is for the client, the zone, the name and the body of
    this provider and this IP. *)
Theorem Update_request_discipline
    (p : Provider) (ip : Netip.Addr) (v : W) :
  let sent := snd (run (Update p ip) v) in
  request_shape sent /\
  (List.length sent <= 3)%nat /\
  (forall call, In call sent ->
     exists c, createCloudflareClient p = inr c /\ request_of p ip c call).
Proof.
  cbv zeta. rewrite run_Update.
  destruct (createCloudflareClient p) as [err | c].
  { split; [constructor |]. split; [simpl; lia |]. intros call []. }
  cbv zeta.
  assert (Hin : forall sent : list Call,
             Forall (request_of p ip c) sent ->
             forall call, In call sent ->
               exists c0, (inr c : error + Client) = inr c0 /\
                          request_of p ip c0 call).
  { intros sent Hall call HIn. exists c. split; [reflexivity |].
    now apply (proj1 (Forall_forall _ _) Hall). }
  destruct (Records_List c (listQuery p ip) v) as [[e | rs] v1].
  - split; [constructor |]. split; [simpl; lia |].
    apply Hin. repeat constructor.
  - destruct rs as [| first rest].
    + destruct (Records_New c (creation p ip) v1) as [[e | created] v2].
      * split; [constructor |]. split; [simpl; lia |].
        apply Hin. repeat constructor.
      * destruct (Records_Update c (ID created) (change p ip) v2)
          as [answer v3].
        split; [constructor |]. split; [simpl; lia |].
        apply Hin. repeat constructor.
    + destruct (1 <? List.length (first :: rest))%nat.
      * split; [constructor |]. split; [simpl; lia |].
        apply Hin. repeat constructor.
      * destruct (String.eqb (resp_Content first) (Netip.String ip)).
        -- split; [constructor |]. split; [simpl; lia |].
           apply Hin. repeat constructor.
        -- destruct (Records_Update c (ID first) (change p ip) v1)
             as [answer v3].
           split; [constructor |]. split; [simpl; lia |].
           apply Hin. repeat constructor.
Qed.

(** X6. [Update] reports success only on the vendor's word: when it
    returns a [nil] error, either the lookup answered one record that
    already held the text of the IP and nothing else was sent, or the
    last request was an update that the vendor accepted. *)
Theorem Update_success_is_confirmed_by_vendor
    (p : Provider) (ip : Netip.Addr) (v : W) :
  snd (fst (fst (run (Update p ip) v))) = None ->
  fst (fst (fst (run (Update p ip) v))) = ip /\
  exists c, createCloudflareClient p = inr c /\
    ((exists found v1,
        Records_List c (listQuery p ip) v = (inr [found], v1) /\
        resp_Content found = Netip.String ip /\
        snd (run (Update p ip) v) = [CallList c (listQuery p ip)]) \/
     (exists id before v2 ok v3,
        snd (run (Update p ip) v) =
          (before ++ [CallUpdate c id (change p ip)])%list /\
        Records_Update c id (change p ip) v2 = (inr ok, v3) /\
        snd (fst (run (Update p ip) v)) = v3)).
Proof.
  rewrite run_Update.
  destruct (createCloudflareClient p) as [err | c]; [discriminate |].
  cbv zeta.
  destruct (Records_List c (listQuery p ip) v) as [[e | rs] v1] eqn:Elist;
    [discriminate |].
  destruct rs as [| first rest].
  - destruct (Records_New c (creation p ip) v1) as [[e | created] v2];
      [discriminate |].
    destruct (Records_Update c (ID created) (change p ip) v2)
      as [[e | ok] v3] eqn:Eupdate; [discriminate |].
    intros _. split; [reflexivity |]. exists c. split; [reflexivity |].
    right.
    exists (ID created),
      [CallList c (listQuery p ip); CallNew c (creation p ip)], v2, ok, v3.
    now repeat split.
  - destruct (1 <? List.length (first :: rest))%nat eqn:Hmany;
      [discriminate |].
    destruct (String.eqb (resp_Content first) (Netip.String ip)) eqn:Esame.
    + intros _. split; [reflexivity |]. exists c. split; [reflexivity |].
      left. exists first, v1. apply String.eqb_eq in Esame.
      destruct rest as [| second rest]; [now repeat split | discriminate].
    + destruct (Records_Update c (ID first) (change p ip) v1)
        as [[e | ok] v3] eqn:Eupdate; [discriminate |].
      intros _. split; [reflexivity |]. exists c. split; [reflexivity |].
      right. exists (ID first), [CallList c (listQuery p ip)], v1, ok, v3.
      now repeat split.
Qed.

End UpdateProperties.

(** ** Construction and client creation: the full decision tables *)
Section ConstructionProperties.
Import Cf Cloudflare Regexp.
Context {PK : Packages} {JS : Json}.

(** X7. Client creation picks one credential by precedence: the token
    when there is one; otherwise the key with the email when both are
    there; otherwise the user service key.  A key without email, or an
    email without key, is passed over; with nothing usable the error is
    "no authentication method available". *)
Theorem createCloudflareClient_precedence (p : Provider) :
  (token p <> "" ->
   createCloudflareClient p = inr [WithAPIToken (token p)]) /\
  (token p = "" -> email p <> "" -> key p <> "" ->
   createCloudflareClient p =
   inr [WithAPIKey (key p); WithAPIEmail (email p)]) /\
  (token p = "" -> email p = "" \/ key p = "" -> userServiceKey p <> "" ->
   createCloudflareClient p = inr [WithAPIKey (userServiceKey p)]) /\
  (token p = "" -> email p = "" \/ key p = "" -> userServiceKey p = "" ->
   createCloudflareClient p =
   inl (Opaque "no authentication method available")).
Proof.
  unfold createCloudflareClient, NewClient.
  pose proof (is_empty_spec (token p)) as Ht.
  pose proof (is_empty_spec (email p)) as He.
  pose proof (is_empty_spec (key p)) as Hk.
  pose proof (is_empty_spec (userServiceKey p)) as Hu.
  destruct (Strings.is_empty (token p)), (Strings.is_empty (email p)),
    (Strings.is_empty (key p)), (Strings.is_empty (userServiceKey p));
    cbn [negb andb]; repeat split; intros; try reflexivity;
    try congruence; tauto.
Qed.

(** X8. [validateSettings] returns [nil] exactly when the domain passes
    [CheckDomain], the key and the email match their patterns if either
    is given, the user service key matches its pattern if it is given
    alone, the zone identifier is not empty and the TTL is not zero. *)
Theorem validateSettings_nil_iff
    (domain email key userServiceKey zoneIdentifier : string) (ttl : Z) :
  validateSettings domain email key userServiceKey zoneIdentifier ttl = None <->
  utils_CheckDomain domain = None /\
  (email <> "" \/ key <> "" ->
   MatchString keyRegex key = true /\ MatchString regexEmail email = true) /\
  (email = "" -> key = "" -> userServiceKey <> "" ->
   MatchString userServiceKeyRegex userServiceKey = true) /\
  zoneIdentifier <> "" /\ ttl <> 0.
Proof.
  split; [apply validateSettings_nil |].
  intros (Hdomain & Hpair & Husk & Hzone & Httl).
  unfold validateSettings. rewrite Hdomain.
  apply is_empty_false in Hzone. apply Z.eqb_neq in Httl.
  rewrite Hzone, Httl.
  pose proof (is_empty_spec email) as He.
  pose proof (is_empty_spec key) as Hk.
  pose proof (is_empty_spec userServiceKey) as Hu.
  destruct (Strings.is_empty email), (Strings.is_empty key); cbn [negb orb].
  - destruct (Strings.is_empty userServiceKey); cbn [negb]; [reflexivity |].
    now rewrite (Husk He Hk Hu).
  - destruct Hpair as [-> ->]; [now right | reflexivity].
  - destruct Hpair as [-> ->]; [now left | reflexivity].
  - destruct Hpair as [-> ->]; [now left | reflexivity].
Qed.

(** X9. As soon as an email or a key is given, the user service key is
    not looked at: the verdict of [validateSettings] is the same for
    every user service key, well formed or not. *)
Theorem validateSettings_ignores_user_service_key_beside_email_or_key
    (domain email key zoneIdentifier : string) (ttl : Z)
    (userServiceKey userServiceKey' : string) :
  email <> "" \/ key <> "" ->
  validateSettings domain email key userServiceKey zoneIdentifier ttl =
  validateSettings domain email key userServiceKey' zoneIdentifier ttl.
Proof.
  intros Hone. unfold validateSettings.
  destruct (utils_CheckDomain domain); [reflexivity |].
  pose proof (is_empty_spec email) as He.
  pose proof (is_empty_spec key) as Hk.
  destruct (Strings.is_empty email), (Strings.is_empty key); cbn [negb orb];
    try reflexivity.
  destruct Hone; congruence.
Qed.

(** X10. [validateSettings] reports the first check that fails, in the
    order domain, key, email, user service key, zone identifier, TTL:
    the error it returns wraps the sentinel of that check, whatever the
    later fields hold. *)
Theorem validateSettings_reports_first_failed_check
    (domain email key userServiceKey zoneIdentifier : string) (ttl : Z) :
  let verdict :=
    validateSettings domain email key userServiceKey zoneIdentifier ttl in
  let blames (s : sentinel) :=
    exists err, verdict = Some err /\ Is err s = true in
  let credentials_pass :=
    (email <> "" \/ key <> "" ->
     MatchString keyRegex key = true /\ MatchString regexEmail email = true) /\
    (email = "" -> key = "" -> userServiceKey <> "" ->
     MatchString userServiceKeyRegex userServiceKey = true) in
  (utils_CheckDomain domain <> None -> blames ErrDomainNotValid) /\
  (utils_CheckDomain domain = None ->
   (email <> "" \/ key <> "" -> MatchString keyRegex key = false ->
    blames ErrKeyNotValid) /\
   (email <> "" \/ key <> "" -> MatchString keyRegex key = true ->
    MatchString regexEmail email = false -> blames ErrEmailNotValid) /\
   (email = "" -> key = "" -> userServiceKey <> "" ->
    MatchString userServiceKeyRegex userServiceKey = false ->
    blames ErrUserServiceKeyNotValid) /\
   (credentials_pass -> zoneIdentifier = "" ->
    blames ErrZoneIdentifierNotSet) /\
   (credentials_pass -> zoneIdentifier <> "" -> ttl = 0 ->
    blames ErrTTLNotSet)).
Proof.
  cbv zeta. unfold validateSettings.
  destruct (utils_CheckDomain domain) as [e |].
  { split; [intros _; eexists; split; reflexivity |]. discriminate. }
  split; [intros Hnone; now elim Hnone |]. intros _.
  assert (Hgiven : email <> "" \/ key <> "" ->
                   negb (Strings.is_empty email) ||
                   negb (Strings.is_empty key) = true).
  { pose proof (is_empty_spec email) as He.
    pose proof (is_empty_spec key) as Hk.
    destruct (Strings.is_empty email), (Strings.is_empty key);
      try reflexivity. intros [H | H]; congruence. }
  assert (Halone : email = "" -> key = "" -> userServiceKey <> "" ->
                   negb (Strings.is_empty email) ||
                   negb (Strings.is_empty key) = false /\
                   negb (Strings.is_empty userServiceKey) = true).
  { intros -> -> Hu. apply is_empty_false in Hu. now rewrite Hu. }
  assert (Hpass :
    (email <> "" \/ key <> "" ->
     MatchString keyRegex key = true /\
     MatchString regexEmail email = true) /\
    (email = "" -> key = "" -> userServiceKey <> "" ->
     MatchString userServiceKeyRegex userServiceKey = true) ->
    (if negb (Strings.is_empty email) || negb (Strings.is_empty key)
     then
       if negb (MatchString keyRegex key) then
         Some (Wrap "" (Sentinel ErrKeyNotValid)
                 (": key " ++ strconv_Quote key ++
                  " does not match regex " ++
                  strconv_Quote (source keyRegex)))
       else if negb (MatchString regexEmail email) then
         Some (Wrap "" (Sentinel ErrEmailNotValid)
                 (": email " ++ strconv_Quote email ++
                  " does not match regex " ++
                  strconv_Quote (source regexEmail)))
       else None
     else if negb (Strings.is_empty userServiceKey) then
       if negb (MatchString userServiceKeyRegex userServiceKey) then
         Some (Wrap "" (Sentinel ErrUserServiceKeyNotValid)
                 (": " ++ strconv_Quote userServiceKey ++
                  " does not match regex " ++
                  strconv_Quote (source userServiceKeyRegex)))
       else None
     else None) = None).
  { intros [Hpair Husk].
    pose proof (is_empty_spec email) as He.
    pose proof (is_empty_spec key) as Hk.
    pose proof (is_empty_spec userServiceKey) as Hu.
    destruct (Strings.is_empty email), (Strings.is_empty key);
      cbn [negb orb].
    - destruct (Strings.is_empty userServiceKey); cbn [negb];
        [reflexivity |]. now rewrite (Husk He Hk Hu).
    - destruct Hpair as [-> ->]; [now right | reflexivity].
    - destruct Hpair as [-> ->]; [now left | reflexivity].
    - destruct Hpair as [-> ->]; [now left | reflexivity]. }
  split; [| split; [| split; [| split]]].
  - intros Hone Hkey. rewrite (Hgiven Hone), Hkey.
    eexists; split; reflexivity.
  - intros Hone Hkey Hmail. rewrite (Hgiven Hone), Hkey, Hmail.
    eexists; split; reflexivity.
  - intros He Hk Hu Hbad. destruct (Halone He Hk Hu) as [-> ->].
    rewrite Hbad. eexists; split; reflexivity.
  - intros Hok ->. rewrite (Hpass Hok).
    eexists; split; reflexivity.
  - intros Hok Hzone ->. rewrite (Hpass Hok).
    apply is_empty_false in Hzone. rewrite Hzone.
    eexists; split; reflexivity.
Qed.

End ConstructionProperties.

(** ** The lookup and the record body *)
Section LookupProperties.
Import Cf Cloudflare.
Context {PK : Packages} {W : Type} {DNS : DNSRecords W}.

(** X11. The record type follows [Is6] alone: [AAAA] for every IPv6
    address, IPv4-mapped ones included (their content is then the
    [::ffff:] form), and [A] for everything else.  The address is not
    checked for validity: for the zero address the body is an [A] record
    whose content is the text [invalid IP]. *)
Theorem recordBody_follows_Is6 (p : Provider) (ip : Netip.Addr) :
  (Netip.Is6 ip = true -> Type_ (recordBody p ip) = "AAAA") /\
  (Netip.Is6 ip = false -> Type_ (recordBody p ip) = "A") /\
  (Netip.Is4In6 ip = true ->
   Type_ (recordBody p ip) = "AAAA" /\
   exists rest, Content (recordBody p ip) = "::ffff:" ++ rest) /\
  (Netip.IsValid ip = false ->
   Type_ (recordBody p ip) = "A" /\
   Content (recordBody p ip) = "invalid IP").
Proof.
  cbn [recordBody Type_ Content]. unfold recordTypeForIP.
  split; [now intros -> |]. split; [now intros -> |]. split.
  - intros Hmapped. unfold Netip.String.
    assert (H6 : Netip.Is6 ip = true).
    { unfold Netip.Is4In6 in Hmapped.
      destruct (Netip.Is6 ip); [reflexivity | discriminate]. }
    rewrite H6, Hmapped. split; [reflexivity |].
    unfold Netip.Is6 in H6.
    destruct (Netip.z ip); try discriminate;
      eexists; unfold Netip.string4In6; reflexivity.
  - unfold Netip.IsValid, Netip.Is6, Netip.String.
    destruct (Netip.z ip); try discriminate. now split.
Qed.

(** X12. [getRecordID] sends the lookup and nothing else.  It returns a
    [nil] error exactly when the vendor answered with one record, and
    then the identifier is that record's; it reports up-to-date only for
    one record whose content is the text of the IP; with an error the
    identifier is empty and up-to-date is false. *)
Theorem getRecordID_contract
    (p : Provider) (c : Client) (newIP : Netip.Addr) (v : W) :
  let '(identifier, upToDate, err, sent) :=
    let '(r, w) := getRecordID p c newIP (mkWorld v []) in (r, calls w) in
  sent = [CallList c (listQuery p newIP)] /\
  (err = None <->
   exists found,
     fst (Records_List c (listQuery p newIP) v) = inr [found]) /\
  (forall found,
     fst (Records_List c (listQuery p newIP) v) = inr [found] ->
     identifier = ID found /\
     (upToDate = true <-> resp_Content found = Netip.String newIP)) /\
  (err <> None -> identifier = "" /\ upToDate = false).
Proof.
  rewrite run_getRecordID.
  destruct (Records_List c (listQuery p newIP) v) as [[e | rs] v1].
  - cbn [fst]. split; [reflexivity |]. split; [| split].
    + split; [discriminate | intros [found E]; discriminate].
    + intros found E. discriminate.
    + now intros _.
  - destruct rs as [| first rest].
    + cbn [fst]. split; [reflexivity |]. split; [| split].
      * split; [discriminate | intros [found E]; discriminate].
      * intros found E. discriminate.
      * now intros _.
    + destruct rest as [| second rest].
      * cbn [List.length Nat.ltb Nat.leb fst].
        destruct (String.eqb (resp_Content first) (Netip.String newIP))
          eqn:Esame.
        -- apply String.eqb_eq in Esame.
           split; [reflexivity |]. split; [| split].
           ++ split; [intros _; now exists first | reflexivity].
           ++ intros found E. injection E as <-. now split.
           ++ intros Herr. now elim Herr.
        -- apply String.eqb_neq in Esame.
           split; [reflexivity |]. split; [| split].
           ++ split; [intros _; now exists first | reflexivity].
           ++ intros found E. injection E as <-.
              split; [reflexivity |]. split; [discriminate | tauto].
           ++ intros Herr. now elim Herr.
      * cbn [List.length Nat.ltb Nat.leb fst].
        split; [reflexivity |]. split; [| split].
        -- split; [discriminate | intros [found E]; discriminate].
        -- intros found E. discriminate.
        -- now intros _.
Qed.

End LookupProperties.

(** ** The projection: what it depends on *)
Section ProjectionProperties.
Import Records.
Context {PK : Packages}.
Context {P H : Type} {PO : ProviderOps P} {HO : Models.HistoryOps H}.

(** X13. The argument [now] of [JSON] matters for up-to-date records
    only: for every other status the whole row is the same whatever
    [now] is, the age being taken from the wall clock. *)
Theorem JSON_ignores_now_unless_up_to_date
    (clock : GoTime.Time) (r : Record_ P H) (now now' : GoTime.Time) :
  Status r <> constants_UPTODATE ->
  JSON clock r now = JSON clock r now'.
Proof.
  intros Hstate. apply String.eqb_neq in Hstate.
  unfold JSON, shownMessage. now rewrite Hstate.
Qed.

End ProjectionProperties.

(** ** The age of the last attempt *)
Section AgeProperties.
Import GoTime.

Lemma wrap64_small (x : Z) : - 2 ^ 63 <= x < 2 ^ 63 -> wrap64 x = x.
Proof.
  intros Hx. unfold wrap64.
  pose proof (eq_refl : 2 ^ 63 = 9223372036854775808) as P63.
  pose proof (eq_refl : 2 ^ 64 = 18446744073709551616) as P64.
  rewrite Z.mod_small; lia.
Qed.

Lemma uint64_small (x : Z) : 0 <= x < 2 ^ 64 -> uint64 x = x.
Proof. intros Hx. unfold uint64. now apply Z.mod_small. Qed.

Lemma lessThanHalf_spec (r m : Z) :
  0 <= r < m -> m < 2 ^ 62 -> lessThanHalf r m = (r + r <? m).
Proof.
  intros Hr Hm. unfold lessThanHalf.
  pose proof (eq_refl : 2 ^ 62 = 4611686018427387904) as P62.
  pose proof (eq_refl : 2 ^ 64 = 18446744073709551616) as P64.
  rewrite (uint64_small r), (uint64_small m), (uint64_small (r + r)); lia.
Qed.

(** X14. Away from the ends of the [int64] range, the age that [JSON]
    prints is the time since the last attempt rounded to a whole number
    of seconds: a multiple of one second, at most half a second away
    from the exact duration. *)
Theorem age_is_rounded_to_seconds (clock t : Time) :
  - 2 ^ 62 <= clock - t <= 2 ^ 62 ->
  let age := Round (Since clock t) Second in
  age mod Second = 0 /\ Z.abs (age - (clock - t)) * 2 <= Second.
Proof.
  intros Hrange. cbv zeta.
  pose proof (eq_refl : 2 ^ 62 = 4611686018427387904) as P62.
  pose proof (eq_refl : 2 ^ 63 = 9223372036854775808) as P63.
  assert (Hsince : Since clock t = clock - t).
  { unfold Since, Sub, minDuration, maxDuration.
    destruct (clock - t <? - 2 ^ 63) eqn:E1; [apply Z.ltb_lt in E1; lia |].
    destruct (2 ^ 63 - 1 <? clock - t) eqn:E2;
      [apply Z.ltb_lt in E2; lia | reflexivity]. }
  rewrite Hsince. set (d := clock - t) in *.
  assert (Hsecond : Second = 1000000000) by reflexivity.
  unfold Round. rewrite Hsecond.
  change (1000000000 <=? 0) with false. cbv iota.
  pose proof (Z.quot_rem' d 1000000000) as Hqr.
  destruct (d <? 0) eqn:Hneg.
  - apply Z.ltb_lt in Hneg.
    assert (Hr : -1000000000 < Z.rem d 1000000000 <= 0).
    { pose proof (Z.rem_bound_pos (- d) 1000000000 ltac:(lia) ltac:(lia))
        as Hb.
      rewrite Z.rem_opp_l' in Hb. lia. }
    rewrite lessThanHalf_spec by lia.
    destruct (- Z.rem d 1000000000 + - Z.rem d 1000000000 <? 1000000000)
      eqn:Hhalf.
    + apply Z.ltb_lt in Hhalf. rewrite wrap64_small by lia.
      split; [| lia].
      replace (d + - Z.rem d 1000000000)
        with (Z.quot d 1000000000 * 1000000000) by lia.
      apply Z.mod_mul; lia.
    + apply Z.ltb_ge in Hhalf. rewrite wrap64_small by lia.
      destruct (d - 1000000000 + - Z.rem d 1000000000 <? d) eqn:Hlt;
        [| apply Z.ltb_ge in Hlt; lia].
      split; [| lia].
      replace (d - 1000000000 + - Z.rem d 1000000000)
        with ((Z.quot d 1000000000 - 1) * 1000000000) by lia.
      apply Z.mod_mul; lia.
  - apply Z.ltb_ge in Hneg.
    assert (Hr : 0 <= Z.rem d 1000000000 < 1000000000).
    { apply Z.rem_bound_pos; lia. }
    rewrite lessThanHalf_spec by lia.
    destruct (Z.rem d 1000000000 + Z.rem d 1000000000 <? 1000000000)
      eqn:Hhalf.
    + apply Z.ltb_lt in Hhalf. rewrite wrap64_small by lia.
      split; [| lia].
      replace (d - Z.rem d 1000000000)
        with (Z.quot d 1000000000 * 1000000000) by lia.
      apply Z.mod_mul; lia.
    + apply Z.ltb_ge in Hhalf. rewrite wrap64_small by lia.
      destruct (d <? d + 1000000000 - Z.rem d 1000000000) eqn:Hlt;
        [| apply Z.ltb_ge in Hlt; lia].
      split; [| lia].
      replace (d + 1000000000 - Z.rem d 1000000000)
        with ((Z.quot d 1000000000 + 1) * 1000000000) by lia.
      apply Z.mod_mul; lia.
Qed.

End AgeProperties.

(** ** The information providers: unknown names *)
Section InfoProperties.
Import Info.

(** X15. For a name outside [ListProviders], [ValidateProvider] returns
    an error that wraps [ErrUnknownProvider] and whose text is "unknown
    public IP information provider: " followed by the name. *)
Theorem ValidateProvider_names_the_unknown_provider
    (errorsText : sentinel -> string) (provider : Provider) :
  ~ In provider ListProviders ->
  exists err,
    ValidateProvider provider = Some err /\
    Is err ErrUnknownProvider = true /\
    Error errorsText err =
      "unknown public IP information provider: " ++ provider.
Proof.
  intros Hunknown.
  destruct (ValidateProvider provider) as [err |] eqn:E.
  - unfold ValidateProvider in E.
    destruct (known provider ListProviders); [discriminate |].
    injection E as <-. eexists. repeat split.
  - apply ValidateProvider_nil in E. contradiction.
Qed.

(** X16. [newProvider] panics exactly on the names that
    [ValidateProvider] rejects, with the text "provider <name> not
    implemented"; on the others it returns. *)
Theorem newProvider_panics_iff_not_validated
    {C I : Type} {K : Constructors C I} (providerName : Provider)
    (client : C) :
  (ValidateProvider providerName <> None <->
   newProvider providerName client =
   Panicked ("provider " ++ providerName ++ " not implemented")) /\
  (ValidateProvider providerName <> None <->
   forall provider : I,
     newProvider providerName client <> Returned provider).
Proof.
  unfold ValidateProvider, newProvider, ListProviders. cbn [known].
  destruct (String.eqb providerName Ipinfo).
  - split; split.
    + intros Hbad. now elim Hbad.
    + intros E. discriminate E.
    + intros Hbad. now elim Hbad.
    + intros Hall. now elim (Hall (newIpinfo client)).
  - destruct (String.eqb providerName IP2Location).
    + split; split.
      * intros Hbad. now elim Hbad.
      * intros E. discriminate E.
      * intros Hbad. now elim Hbad.
      * intros Hall. now elim (Hall (newIP2Location client)).
    + split; split.
      * reflexivity.
      * intros _ E. discriminate E.
      * intros _ provider E. discriminate E.
      * intros _ E. discriminate E.
Qed.

End InfoProperties.

(** ** The patterns of [validateSettings] *)
Section PatternProperties.
Import Regexp Cloudflare.

Lemma cat_Eps_l (r : re) : cat Eps r = r.
Proof. destruct r; reflexivity. Qed.

Lemma cat_Eps_r (r : re) : cat r Eps = r.
Proof. destruct r; reflexivity. Qed.

Lemma cat_Void_l (r : re) : cat Void r = Void.
Proof. reflexivity. Qed.

Lemma alt_Void_l (r : re) : alt Void r = r.
Proof. reflexivity. Qed.

Lemma alt_Void_r (r : re) : alt r Void = r.
Proof. destruct r; reflexivity. Qed.

Lemma full_match_Void (s : string) : full_match Void s = false.
Proof. induction s as [| c s IH]; [reflexivity | exact IH]. Qed.

Lemma full_match_Eps_Cat (r : re) (s : string) :
  full_match (Cat Eps r) s = full_match r s.
Proof.
  destruct s as [| c s]; [reflexivity |].
  cbn [full_match deriv nullable]. now rewrite cat_Void_l, alt_Void_l.
Qed.

Lemma full_match_Cat_Eps (r : re) (s : string) :
  full_match (Cat r Eps) s = full_match r s.
Proof.
  destruct s as [| c s].
  - cbn [full_match nullable]. apply andb_true_r.
  - cbn [full_match deriv]. rewrite cat_Eps_r.
    destruct (nullable r); [now rewrite alt_Void_r | reflexivity].
Qed.

Lemma in_range_one (c x : ascii) :
  existsb (in_range c) [one x] = Ascii.eqb c x.
Proof.
  cbn [existsb]. unfold in_range, one. cbn [fst snd]. rewrite orb_false_r.
  destruct (Ascii.eqb c x) eqn:E.
  - apply Ascii.eqb_eq in E. subst. now rewrite N.leb_refl.
  - apply Ascii.eqb_neq in E.
    destruct (N_of_ascii x <=? N_of_ascii c)%N eqn:E1;
      destruct (N_of_ascii c <=? N_of_ascii x)%N eqn:E2; try reflexivity.
    apply N.leb_le in E1, E2. elim E.
    rewrite <- (ascii_N_embedding c), <- (ascii_N_embedding x).
    f_equal. lia.
Qed.

(** A literal character, then the rest. *)
Lemma full_match_lit (x : ascii) (r : re) (s : string) :
  full_match (Cat (lit x) r) s =
  match s with
  | EmptyString => false
  | String.String c s' => Ascii.eqb c x && full_match r s'
  end.
Proof.
  destruct s as [| c s]; [reflexivity |].
  unfold lit. cbn [full_match deriv nullable]. rewrite in_range_one.
  destruct (Ascii.eqb c x).
  - now rewrite cat_Eps_l.
  - rewrite cat_Void_l. apply full_match_Void.
Qed.

(** Any number of characters of a class. *)
Lemma full_match_Star_Class (ranges : list (ascii * ascii)) (s : string) :
  full_match (Star (Class ranges)) s =
  forallb (fun c => existsb (in_range c) ranges) (list_ascii_of_string s).
Proof.
  induction s as [| c s IH]; [reflexivity |].
  cbn [full_match deriv list_ascii_of_string forallb].
  destruct (existsb (in_range c) ranges).
  - rewrite cat_Eps_l. exact IH.
  - rewrite cat_Void_l. apply full_match_Void.
Qed.

(** Any number of characters other than the line feed. *)
Lemma full_match_Star_Dot (s : string) :
  full_match (Star Dot) s =
  forallb (fun c => negb (Ascii.eqb c line_feed)) (list_ascii_of_string s).
Proof.
  induction s as [| c s IH]; [reflexivity |].
  cbn [full_match deriv list_ascii_of_string forallb].
  change "010"%char with line_feed.
  destruct (Ascii.eqb c line_feed); cbn [negb andb].
  - rewrite cat_Void_l. apply full_match_Void.
  - rewrite cat_Eps_l. exact IH.
Qed.

Lemma alnum_class (c : ascii) :
  existsb (in_range c) alnum = ascii_alnum c.
Proof.
  destruct c as [[] [] [] [] [] [] [] []]; reflexivity.
Qed.

(** X17. The key pattern accepts exactly the non-empty texts made of
    ASCII letters and digits: nothing else passes the key check of
    [validateSettings], not even with a trailing line feed. *)
Theorem keyRegex_accepts_exactly_alphanumeric (key : string) :
  MatchString keyRegex key = true <->
  key <> "" /\
  Forall (fun c => ascii_alnum c = true) (list_ascii_of_string key).
Proof.
  unfold MatchString, keyRegex, Plus.
  cbn [at_start at_end body].
  rewrite full_match_Eps_Cat, full_match_Cat_Eps.
  destruct key as [| c key].
  - split; [discriminate | intros [Hne _]; now elim Hne].
  - cbn [full_match deriv nullable list_ascii_of_string].
    rewrite alnum_class.
    destruct (ascii_alnum c) eqn:Ec.
    + rewrite cat_Eps_l, full_match_Star_Class, forallb_forall, Forall_forall.
      split.
      * intros Hall. split; [discriminate |].
        intros x [<- | HIn]; [exact Ec |].
        rewrite <- alnum_class. now apply Hall.
      * intros [_ Hall] x HIn. rewrite alnum_class.
        apply Hall. now right.
    + rewrite cat_Void_l, full_match_Void. split; [discriminate |].
      intros [_ Hall]. apply Forall_inv in Hall. congruence.
Qed.

(** X18. The user service key pattern accepts exactly the texts that
    start with [v1.0] and go on with at least one more character, none
    of them a line feed. *)
Theorem userServiceKeyRegex_accepts_exactly_v1_0_tokens (usk : string) :
  MatchString userServiceKeyRegex usk = true <->
  exists rest,
    usk = "v1.0" ++ rest /\ rest <> "" /\
    Forall (fun c => c <> line_feed) (list_ascii_of_string rest).
Proof.
  unfold MatchString, userServiceKeyRegex, Plus.
  cbn [at_start at_end body].
  rewrite full_match_Eps_Cat, full_match_Cat_Eps.
  assert (Hrest : forall rest,
            full_match (Cat Dot (Star Dot)) rest = true <->
            rest <> "" /\
            Forall (fun c => c <> line_feed) (list_ascii_of_string rest)).
  { intros [| c rest].
    - split; [discriminate | intros [Hne _]; now elim Hne].
    - cbn [full_match deriv nullable list_ascii_of_string].
      change "010"%char with line_feed.
      destruct (Ascii.eqb c line_feed) eqn:Ec.
      + apply Ascii.eqb_eq in Ec. rewrite cat_Void_l, full_match_Void.
        split; [discriminate |]. intros [_ Hall].
        apply Forall_inv in Hall. contradiction.
      + apply Ascii.eqb_neq in Ec.
        rewrite cat_Eps_l, full_match_Star_Dot, forallb_forall, Forall_forall.
        split.
        * intros Hall. split; [discriminate |].
          intros x [<- | HIn]; [exact Ec |].
          specialize (Hall x HIn). apply negb_true_iff in Hall.
          now apply Ascii.eqb_neq.
        * intros [_ Hall] x HIn. apply negb_true_iff, Ascii.eqb_neq.
          apply Hall. now right. }
  destruct usk as [| c1 [| c2 [| c3 [| c4 rest]]]];
    rewrite ?full_match_lit;
    repeat match goal with
           | |- context [Ascii.eqb ?c ?x] =>
               destruct (Ascii.eqb_spec c x) as [-> | ?];
               cbn [andb]; rewrite ?full_match_lit
           end;
    try (split;
         [discriminate
         | intros (rest' & E & _); cbn [append] in E; congruence]).
  rewrite Hrest. split.
  - intros H. now exists rest.
  - intros (rest' & E & H). cbn [append] in E. injection E as <-. exact H.
Qed.

End PatternProperties.

(** ** The matcher against the language of a pattern *)
Section MatcherCorrectness.
Import Regexp.

Lemma append_nil_r (s : string) : s ++ "" = s.
Proof. induction s as [| a s IH]; simpl; [| rewrite IH]; reflexivity. Qed.

Lemma append_eq_nil (s t : string) : s ++ t = "" -> s = "" /\ t = "".
Proof. destruct s; simpl; [now split | discriminate]. Qed.

Lemma matches_Void (s : string) : ~ matches Void s.
Proof. intros H. inversion H. Qed.

Lemma matches_Eps_inv (s : string) : matches Eps s -> s = "".
Proof. intros H. now inversion H. Qed.

Lemma matches_Cat_inv (a b : re) (s : string) :
  matches (Cat a b) s ->
  exists s1 s2, s = s1 ++ s2 /\ matches a s1 /\ matches b s2.
Proof. intros H. inversion H; subst. now eexists _, _. Qed.

Lemma matches_Alt_inv (a b : re) (s : string) :
  matches (Alt a b) s -> matches a s \/ matches b s.
Proof. intros H. inversion H; subst; tauto. Qed.

Lemma nullable_matches (r : re) : nullable r = true <-> matches r "".
Proof.
  induction r as [| | ranges | | | a IHa b IHb | a IHa b IHb | a IHa];
    cbn [nullable].
  - split; [discriminate | intros H; inversion H].
  - split; [constructor | reflexivity].
  - split; [discriminate | intros H; inversion H].
  - split; [discriminate | intros H; inversion H].
  - split; [discriminate | intros H; inversion H].
  - rewrite andb_true_iff, IHa, IHb. split.
    + intros [Ha Hb]. exact (matches_cat a b "" "" Ha Hb).
    + intros H. apply matches_Cat_inv in H.
      destruct H as (s1 & s2 & E & H1 & H2).
      symmetry in E. apply append_eq_nil in E. destruct E as [-> ->].
      now split.
  - rewrite orb_true_iff, IHa, IHb. split.
    + intros [Ha | Hb]; [now apply matches_alt_l | now apply matches_alt_r].
    + apply matches_Alt_inv.
  - split; [constructor | reflexivity].
Qed.

Lemma matches_cat_smart (a b : re) (s : string) :
  matches (cat a b) s <-> matches (Cat a b) s.
Proof.
  assert (HV1 : forall x, matches Void s <-> matches (Cat Void x) s).
  { intros x. split; [intros H; inversion H |].
    intros H. apply matches_Cat_inv in H.
    destruct H as (s1 & s2 & _ & H1 & _). inversion H1. }
  assert (HV2 : forall x, matches Void s <-> matches (Cat x Void) s).
  { intros x. split; [intros H; inversion H |].
    intros H. apply matches_Cat_inv in H.
    destruct H as (s1 & s2 & _ & _ & H2). inversion H2. }
  assert (HE1 : forall x, matches x s <-> matches (Cat Eps x) s).
  { intros x. split.
    - intros H. exact (matches_cat Eps x "" s matches_eps H).
    - intros H. apply matches_Cat_inv in H.
      destruct H as (s1 & s2 & -> & H1 & H2).
      apply matches_Eps_inv in H1. now subst. }
  assert (HE2 : forall x, matches x s <-> matches (Cat x Eps) s).
  { intros x. split.
    - intros H. rewrite <- (append_nil_r s).
      exact (matches_cat x Eps s "" H matches_eps).
    - intros H. apply matches_Cat_inv in H.
      destruct H as (s1 & s2 & -> & H1 & H2).
      apply matches_Eps_inv in H2. subst. now rewrite append_nil_r. }
  destruct a; destruct b; cbn [cat];
    first [ apply HV1 | apply HV2 | apply HE1 | apply HE2 | reflexivity ].
Qed.

Lemma matches_alt_smart (a b : re) (s : string) :
  matches (alt a b) s <-> matches (Alt a b) s.
Proof.
  assert (HV1 : forall x, matches x s <-> matches (Alt Void x) s).
  { intros x. split; [now apply matches_alt_r |].
    intros H. apply matches_Alt_inv in H.
    destruct H as [H | H]; [inversion H | exact H]. }
  assert (HV2 : forall x, matches x s <-> matches (Alt x Void) s).
  { intros x. split; [now apply matches_alt_l |].
    intros H. apply matches_Alt_inv in H.
    destruct H as [H | H]; [exact H | inversion H]. }
  destruct a; destruct b; cbn [alt];
    first [ apply HV1 | apply HV2 | reflexivity ].
Qed.

Lemma matches_Star_cons_inv (a : re) (c : ascii) (s : string) :
  matches (Star a) (String c s) ->
  exists s1 s2,
    s = s1 ++ s2 /\ matches a (String c s1) /\ matches (Star a) s2.
Proof.
  intros H.
  remember (Star a) as r eqn:Er. remember (String c s) as w eqn:Ew.
  revert s Ew.
  induction H as [| | | | | | | | a' s0 t H1 _ H2 IH2]; intros s' Ew;
    try discriminate.
  injection Er as ->.
  destruct s0 as [| c0 s0].
  - cbn [append] in Ew. now apply IH2.
  - cbn [append] in Ew. injection Ew as -> <-. now exists s0, t.
Qed.

(** The derivative by [c] matches the texts that, put after [c], match
    the pattern. *)
Lemma deriv_matches (r : re) (c : ascii) (s : string) :
  matches (deriv c r) s <-> matches r (String c s).
Proof.
  revert s.
  induction r as [| | ranges | | | a IHa b IHb | a IHa b IHb | a IHa];
    intros s; cbn [deriv].
  - split; intros H; inversion H.
  - split; intros H; inversion H.
  - destruct (existsb (in_range c) ranges) eqn:E.
    + split.
      * intros H. apply matches_Eps_inv in H. subst. now constructor.
      * intros H. inversion H; subst. constructor.
    + split; [intros H; inversion H |].
      intros H. inversion H; subst. congruence.
  - destruct (Ascii.eqb_spec c "010"%char) as [-> | Hc].
    + split; [intros H; inversion H |].
      intros H. inversion H; subst. unfold line_feed in *. congruence.
    + split.
      * intros H. apply matches_Eps_inv in H. subst. now constructor.
      * intros H. inversion H; subst. constructor.
  - split.
    + intros H. apply matches_Eps_inv in H. subst. constructor.
    + intros H. inversion H; subst. constructor.
  - assert (Hleft : matches (cat (deriv c a) b) s ->
                    matches (Cat a b) (String c s)).
    { intros H. apply matches_cat_smart, matches_Cat_inv in H.
      destruct H as (s1 & s2 & -> & H1 & H2). apply IHa in H1.
      exact (matches_cat a b (String c s1) s2 H1 H2). }
    assert (Hsplit : matches (Cat a b) (String c s) ->
                     matches (cat (deriv c a) b) s \/
                     (matches a "" /\ matches b (String c s))).
    { intros H. apply matches_Cat_inv in H.
      destruct H as (s1 & s2 & E & H1 & H2).
      destruct s1 as [| c1 s1]; cbn [append] in E.
      - right. subst. now split.
      - left. injection E as <- ->. apply matches_cat_smart.
        apply IHa in H1. now constructor. }
    destruct (nullable a) eqn:Hnull.
    + rewrite matches_alt_smart. split.
      * intros H. apply matches_Alt_inv in H.
        destruct H as [H | H]; [now apply Hleft |].
        apply IHb in H. apply nullable_matches in Hnull.
        exact (matches_cat a b "" (String c s) Hnull H).
      * intros H. destruct (Hsplit H) as [H' | [_ H']].
        -- now apply matches_alt_l.
        -- apply matches_alt_r. now apply IHb.
    + split; [exact Hleft |].
      intros H. destruct (Hsplit H) as [H' | [H' _]]; [exact H' |].
      apply nullable_matches in H'. congruence.
  - rewrite matches_alt_smart. split.
    + intros H. apply matches_Alt_inv in H.
      destruct H as [H | H];
        [apply matches_alt_l, IHa | apply matches_alt_r, IHb]; exact H.
    + intros H. apply matches_Alt_inv in H.
      destruct H as [H | H];
        [apply matches_alt_l, IHa | apply matches_alt_r, IHb]; exact H.
  - rewrite matches_cat_smart. split.
    + intros H. apply matches_Cat_inv in H.
      destruct H as (s1 & s2 & -> & H1 & H2). apply IHa in H1.
      exact (matches_star_cons a (String c s1) s2 H1 H2).
    + intros H. apply matches_Star_cons_inv in H.
      destruct H as (s1 & s2 & -> & H1 & H2).
      apply IHa in H1. now constructor.
Qed.

(** The matcher decides the language of the pattern. *)
Lemma full_match_matches (r : re) (s : string) :
  full_match r s = true <-> matches r s.
Proof.
  revert r. induction s as [| c s IH]; intros r; cbn [full_match].
  - apply nullable_matches.
  - rewrite IH. apply deriv_matches.
Qed.

Lemma matches_Star_Any (s : string) : matches (Star Any) s.
Proof.
  induction s as [| c s IH]; [constructor |].
  exact (matches_star_cons Any (String c "") s (matches_any c) IH).
Qed.

End MatcherCorrectness.

(** ** The email pattern *)
Section EmailPattern.
Import Regexp.

(** X19. The email pattern is not anchored: a text it accepts is still
    accepted with anything put before and after it, so the email check
    of [validateSettings] passes for any text that contains an address.
    What it does require is an [@] somewhere in the text. *)
Theorem regexEmail_is_not_anchored (email : string) :
  MatchString Cloudflare.regexEmail email = true ->
  (forall pre post,
     MatchString Cloudflare.regexEmail (pre ++ email ++ post) = true) /\
  Strings.Contains email "@".
Proof.
  unfold MatchString. cbn [at_start at_end Cloudflare.regexEmail].
  set (inner := body Cloudflare.regexEmail).
  intros H. apply full_match_matches in H.
  apply matches_Cat_inv in H. destruct H as (s1 & s23 & -> & H1 & H23).
  apply matches_Cat_inv in H23. destruct H23 as (s2 & s3 & -> & H2 & H3).
  split.
  - intros pre post. apply full_match_matches.
    replace (pre ++ (s1 ++ s2 ++ s3) ++ post)
      with ((pre ++ s1) ++ s2 ++ (s3 ++ post))
      by now rewrite !append_assoc.
    apply matches_cat; [apply matches_Star_Any |].
    apply matches_cat; [exact H2 | apply matches_Star_Any].
  - unfold inner in H2. cbn [body Cloudflare.regexEmail] in H2.
    apply matches_Cat_inv in H2. destruct H2 as (loc & tail & -> & _ & H2).
    apply matches_Cat_inv in H2. destruct H2 as (at_ & dom & -> & Hat & _).
    unfold lit in Hat. inversion Hat as [| ranges c Hc | | | | | | |]; subst.
    rewrite in_range_one in Hc. apply Ascii.eqb_eq in Hc. subst c.
    exists (s1 ++ loc), (dom ++ s3).
    now rewrite !append_assoc.
Qed.

End EmailPattern.

(** ** The [status] handler *)
Section HandlerProperties.
Context {PK : Packages}.
Context {P H : Type} {PO : Records.ProviderOps P} {HO : Models.HistoryOps H}.


End HandlerProperties.

(** ** Examples for the further properties *)
Section MoreExamples.
Import Fixtures Scripted Cf.

(** X1 on a zone that holds [10.0.0.2]: the record is updated in place. *)
Lemma Update_changes_example :
  let zn := mkZone [a_record "r1" "10.0.0.2"] false in
  let zn' := mkZone [a_record "r1" "10.0.0.1"] false in
  run (Cloudflare.Update home ip_10_0_0_1) zn =
    (ip_10_0_0_1, None, zn',
     [CallList client query;
      CallUpdate client "r1" (Cloudflare.change home ip_10_0_0_1)]) /\
  filter is_create (snd (run (Cloudflare.Update home ip_10_0_0_1) zn)) = [].
Proof.
  intros zn zn'.
  assert (Hdiff : resp_Content (response (a_record "r1" "10.0.0.2")) <>
                  Netip.String ip_10_0_0_1) by (vm_compute; discriminate).
  exact (Update_changes_the_found_record home ip_10_0_0_1 client zn zn zn'
           (response (a_record "r1" "10.0.0.2"))
           (inr {| ID := "r1"; resp_Content := "10.0.0.1" |})
           eq_refl eq_refl Hdiff eq_refl).
Defined.

(** X2 on a vendor that is down. *)
Lemma Update_lookup_failure_example :
  exists err : error,
    run (Cloudflare.Update home ip_10_0_0_1) outage =
      (Netip.zero, Some err, outage, [CallList client query]) /\
    Error errors_text err =
      "getting record id: error listing DNS records: 503 Service Unavailable" /\
    Is err ErrReceivedNoResult = false /\
    filter mutating (snd (run (Cloudflare.Update home ip_10_0_0_1) outage)) = [].
Proof.
  exact (Update_lookup_failure_is_not_a_missing_record home ip_10_0_0_1
           client outage outage "503 Service Unavailable" eq_refl eq_refl).
Defined.

(** X3 on an empty zone that refuses writes. *)
Lemma Update_refused_creation_example :
  exists err : error,
    run (Cloudflare.Update home ip_10_0_0_1) read_only =
      (Netip.zero, Some err, read_only,
       [CallList client query;
        CallNew client (Cloudflare.creation home ip_10_0_0_1)]) /\
    Error errors_text err =
      "creating record: error creating DNS record: 403 Forbidden" /\
    filter is_update
      (snd (run (Cloudflare.Update home ip_10_0_0_1) read_only)) = [].
Proof.
  exact (Update_stops_after_refused_creation home ip_10_0_0_1 client
           read_only read_only read_only "403 Forbidden"
           eq_refl eq_refl eq_refl).
Defined.

(** X6 on a zone that already holds [10.0.0.1]. *)
Lemma Update_success_example :
  let zn := mkZone [a_record "r1" "10.0.0.1"] false in
  snd (fst (fst (run (Cloudflare.Update home ip_10_0_0_1) zn))) = None /\
  fst (fst (fst (run (Cloudflare.Update home ip_10_0_0_1) zn))) = ip_10_0_0_1.
Proof.
  intros zn. split; [reflexivity |].
  exact (proj1 (Update_success_is_confirmed_by_vendor home ip_10_0_0_1 zn
                  eq_refl)).
Defined.

(** X7 on the provider that holds a token. *)
Lemma createCloudflareClient_example :
  Cloudflare.token home <> "" /\
  Cloudflare.createCloudflareClient home = inr [WithAPIToken "s3cr3t"].
Proof.
  assert (Htoken : Cloudflare.token home <> "") by discriminate.
  split; [exact Htoken |].
  exact (proj1 (createCloudflareClient_precedence home) Htoken).
Defined.

(** X8 on a token-only configuration. *)
Lemma validateSettings_nil_example :
  Cloudflare.validateSettings "example.com" "" "" "" "zone-1" 300 = None /\
  "zone-1" <> "" /\ 300 <> 0.
Proof.
  split; [reflexivity |].
  exact (proj2 (proj2 (proj2 (proj1 (validateSettings_nil_iff
           "example.com" "" "" "" "zone-1" 300) eq_refl)))).
Defined.

(** X9 on a key and an email: a malformed user service key does not
    change the verdict. *)
Lemma validateSettings_ignores_example :
  Cloudflare.validateSettings "example.com" "me@example.com" "abc123"
    "not a service key" "zone-1" 300 =
  Cloudflare.validateSettings "example.com" "me@example.com" "abc123"
    "v1.0-abcdef" "zone-1" 300.
Proof.
  assert (Hgiven : "me@example.com" <> "" \/ "abc123" <> "")
    by (left; discriminate).
  exact (validateSettings_ignores_user_service_key_beside_email_or_key
           "example.com" "me@example.com" "abc123" "zone-1" 300
           "not a service key" "v1.0-abcdef" Hgiven).
Defined.

(** X10 on a configuration without zone identifier and without TTL: the
    zone identifier is blamed. *)
Lemma validateSettings_order_example :
  exists err,
    Cloudflare.validateSettings "example.com" "" "" "" "" 0 = Some err /\
    Is err ErrZoneIdentifierNotSet = true.
Proof.
  assert (Hpass :
    ("" <> "" \/ "" <> "" ->
     Regexp.MatchString Cloudflare.keyRegex "" = true /\
     Regexp.MatchString Cloudflare.regexEmail "" = true) /\
    ("" = "" -> "" = "" -> "" <> "" ->
     Regexp.MatchString Cloudflare.userServiceKeyRegex "" = true)).
  { split.
    - intros [E | E]; now elim E.
    - intros _ _ E. now elim E. }
  exact (proj1 (proj2 (proj2 (proj2
           (proj2 (validateSettings_reports_first_failed_check
                     "example.com" "" "" "" "" 0) eq_refl))))
           Hpass eq_refl).
Defined.

(** X11 on the zero address. *)
Lemma recordBody_example :
  Type_ (Cloudflare.recordBody home Netip.zero) = "A" /\
  Content (Cloudflare.recordBody home Netip.zero) = "invalid IP".
Proof.
  exact (proj2 (proj2 (proj2 (recordBody_follows_Is6 home Netip.zero)))
           eq_refl).
Defined.

(** X13 on a failed record: two different values of [now]. *)
Lemma JSON_ignores_now_example :
  Records.JSON (10 * GoTime.Second) failed_record 0 =
  Records.JSON (10 * GoTime.Second) failed_record (99 * GoTime.Second).
Proof.
  assert (Hstate : Records.Status failed_record <> constants_UPTODATE)
    by discriminate.
  exact (JSON_ignores_now_unless_up_to_date (10 * GoTime.Second)
           failed_record 0 (99 * GoTime.Second) Hstate).
Defined.

(** X14 three and a half seconds after the attempt: four seconds. *)
Lemma age_example :
  let clock := 10500000000 in
  let t := 7000000000 in
  GoTime.Round (GoTime.Since clock t) GoTime.Second = 4 * GoTime.Second /\
  GoTime.Round (GoTime.Since clock t) GoTime.Second mod GoTime.Second = 0.
Proof.
  intros clock t. split; [reflexivity |].
  assert (Hrange : - 2 ^ 62 <= clock - t <= 2 ^ 62).
  { split; vm_compute; intros E; discriminate E. }
  exact (proj1 (age_is_rounded_to_seconds clock t Hrange)).
Defined.

(** X15 on a name that is not a provider. *)
Lemma ValidateProvider_unknown_example :
  exists err,
    Info.ValidateProvider "whatismyip" = Some err /\
    Is err ErrUnknownProvider = true /\
    Error errors_text err =
      "unknown public IP information provider: whatismyip".
Proof.
  assert (Hunknown : ~ In "whatismyip" Info.ListProviders).
  { intros [E | [E | []]]; discriminate E. }
  exact (ValidateProvider_names_the_unknown_provider errors_text
           "whatismyip" Hunknown).
Defined.

(** X16 on the same name. *)
Lemma newProvider_panics_example :
  Info.ValidateProvider "whatismyip" <> None /\
  Info.newProvider "whatismyip" tt =
    (Panicked "provider whatismyip not implemented" : outcome string).
Proof.
  assert (Hbad : Info.ValidateProvider "whatismyip" <> None)
    by discriminate.
  split; [exact Hbad |].
  exact (proj1 (proj1 (newProvider_panics_iff_not_validated
                         "whatismyip" tt)) Hbad).
Defined.

(** X17 on a key of letters and digits. *)
Lemma keyRegex_example :
  Regexp.MatchString Cloudflare.keyRegex "abc123" = true /\
  "abc123" <> "".
Proof.
  split; [reflexivity |].
  exact (proj1 (proj1 (keyRegex_accepts_exactly_alphanumeric "abc123")
                  eq_refl)).
Defined.

(** X18 on a well-formed user service key. *)
Lemma userServiceKeyRegex_example :
  Regexp.MatchString Cloudflare.userServiceKeyRegex "v1.0-abcdef" = true /\
  exists rest, "v1.0-abcdef" = "v1.0" ++ rest /\ rest <> "" /\
    Forall (fun c => c <> line_feed) (list_ascii_of_string rest).
Proof.
  split; [reflexivity |].
  exact (proj1 (userServiceKeyRegex_accepts_exactly_v1_0_tokens
                  "v1.0-abcdef") eq_refl).
Defined.

(** X19 on an address inside a sentence. *)
Lemma regexEmail_example :
  Regexp.MatchString Cloudflare.regexEmail "me@example.com" = true /\
  Regexp.MatchString Cloudflare.regexEmail
    ("write to " ++ "me@example.com" ++ ", please") = true.
Proof.
  split; [reflexivity |].
  exact (proj1 (regexEmail_is_not_anchored "me@example.com" eq_refl)
           "write to " ", please").
Defined.

End MoreExamples.
